(** * Adaptive priority scheduling: the quantum-simulator worker pool and
      the monitoring server

    A shallow embedding of the two programs of the repository:

    - the quantum task scheduler ([QuantumTask], [ComparePriority],
      [process_quantum_task], [split_task], [process_quantum_tasks]),
      in [Module Quantum];
    - the monitoring server ([MonitoringData], [ComparePriority],
      [monitoring_station], [data_handler], [load_monitor]),
      in [Module Monitoring].

    Both programs keep their pending work in a [std::priority_queue]
    instantiated with their own comparator; the container is modelled once,
    in [Module StdQueue], generically in the element type and the comparator,
    as the class template is.

    Every thread body is modelled sequentially: one thread running alone
    against the shared state.  A blocking [acquire()] on an exhausted
    semaphore is the outcome [Blocked]. *)

From Stdlib Require Import String DecimalString.
From Stdlib Require Import ZArith Arith List Bool Lia Permutation Sorted Wf_nat.
Import ListNotations.
Local Open Scope Z_scope.

(** ** Machine integers *)

Module MachineInt.

Definition int_min : Z := - 2 ^ 31.
Definition int_max : Z := 2 ^ 31 - 1.

(** The values an [int] can hold. *)
Definition in_int (z : Z) : Prop := int_min <= z <= int_max.

(** Two's-complement reduction of a mathematical result to [int].  For a
    [std::atomic<int>] this is the behaviour the language defines; for a
    plain [int] it is what the usual targets do on overflow. *)
Definition wrap_int (z : Z) : Z := (z + 2 ^ 31) mod 2 ^ 32 - 2 ^ 31.

(** [a / b] and [a % b] on integers truncate toward zero. *)
Definition cdiv (a b : Z) : Z := Z.quot a b.
Definition cmod (a b : Z) : Z := Z.rem a b.

End MachineInt.
Import MachineInt.

(** ** Outcomes of a thread body

    A computation runs against a shared state [S] and leaves a trace of the
    observable events [E] (console lines, semaphore operations, sleeps), in
    program order. *)

Module Exec.

Section Outcome.
Context {S E : Type}.

Inductive outcome (A : Type) : Type :=
| Ret (a : A) (s : S) (tr : list E)     (* ran to its end *)
| Blocked (s : S) (tr : list E)         (* waits in acquire() *)
| Running (s : S) (tr : list E).        (* loop still iterating *)

Definition M (A : Type) : Type := S -> outcome A.

Definition ret {A} (a : A) : M A := fun s => Ret A a s [].

Definition bind {A B} (m : M A) (k : A -> M B) : M B :=
  fun s =>
    match m s with
    | Ret _ a s1 tr1 =>
        match k a s1 with
        | Ret _ b s2 tr2 => Ret B b s2 (tr1 ++ tr2)
        | Blocked _ s2 tr2 => Blocked B s2 (tr1 ++ tr2)
        | Running _ s2 tr2 => Running B s2 (tr1 ++ tr2)
        end
    | Blocked _ s1 tr1 => Blocked B s1 tr1
    | Running _ s1 tr1 => Running B s1 tr1
    end.

Definition get : M S := fun s => Ret S s s [].
Definition put (s : S) : M unit := fun _ => Ret unit tt s [].
Definition modify (f : S -> S) : M unit := fun s => Ret unit tt (f s) [].
Definition emit (e : E) : M unit := fun s => Ret unit tt s [e].
Definition block {A} : M A := fun s => Blocked A s [].
Definition out_of_fuel {A} : M A := fun s => Running A s [].

(** The events of an outcome, however it ended. *)
Definition trace {A} (o : outcome A) : list E :=
  match o with
  | Ret _ _ _ tr | Blocked _ _ tr | Running _ _ tr => tr
  end.

Definition final {A} (o : outcome A) : S :=
  match o with
  | Ret _ _ s _ | Blocked _ s _ | Running _ s _ => s
  end.

Definition returns {A} (o : outcome A) : bool :=
  match o with Ret _ _ _ _ => true | _ => false end.

End Outcome.

Arguments outcome : clear implicits.
Arguments M : clear implicits.
Arguments Ret {S E A} a s tr.
Arguments Blocked {S E A} s tr.
Arguments Running {S E A} s tr.

(** What one pass through the body of a [while (true)] did. *)
Inductive loop_ctl : Type := Break | Continue.

(** [while (true) { body }], unrolled at most [fuel] times: [Running] is
    the loop that has not left yet when the fuel is spent. *)
Fixpoint while_true {S E : Type} (fuel : nat) (body : M S E loop_ctl) : M S E unit :=
  match fuel with
  | O => out_of_fuel
  | Datatypes.S fuel' =>
      bind body (fun c =>
        match c with
        | Break => ret tt
        | Continue => while_true fuel' body
        end)
  end.

Module Notations.
Declare Scope exec_scope.
Delimit Scope exec_scope with exec.
Notation "x <- m ;; k" := (bind m (fun x => k))
  (at level 61, m at next level, right associativity) : exec_scope.
Notation "m ;; k" := (bind m (fun _ => k))
  (at level 61, right associativity) : exec_scope.
End Notations.

End Exec.
Import Exec Exec.Notations.

(** ** [std::priority_queue<T, std::vector<T>, Compare>]

    [comp a b = true] reads "[a] is ordered before [b]", and the top of the
    queue is an element that is ordered before no other one: that is all
    the class promises of [top()], and which of several such elements it
    is depends on the library.  The promise is [is_top] below, and a run of
    pops under it is [pops]; what is proved of [pops] holds of the heap of
    any library.

    For the programs to run, the container is the vector of the pending
    elements: [push] appends, [pop] scans for a greatest element and
    removes it. *)

Module StdQueue.

Section priority_queue.
Context {T : Type}.
Variable comp : T -> T -> bool.

Definition priority_queue : Type := list T.

Definition empty (q : priority_queue) : bool :=
  match q with [] => true | _ :: _ => false end.

Definition size (q : priority_queue) : nat := List.length q.

Definition push (x : T) (q : priority_queue) : priority_queue := q ++ [x].

(** [select x q] scans [x :: q] for a greatest element, and returns it
    with the other elements. *)
Fixpoint select (x : T) (q : list T) : T * list T :=
  match q with
  | [] => (x, [])
  | y :: r =>
      if comp x y
      then let (m, r') := select y r in (m, x :: r')
      else let (m, r') := select x r in (m, y :: r')
  end.

(** [top()] and [pop()] together; both are undefined on an empty queue,
    and every caller tests [empty()] first. *)
Definition pop (q : priority_queue) : option (T * priority_queue) :=
  match q with
  | [] => None
  | x :: r => Some (select x r)
  end.

Definition top (q : priority_queue) : option T :=
  option_map fst (pop q).

(** [std::is_heap]: no parent is ordered before a child of its.
    [push_heap] and [pop_heap] keep the vector in this shape, and [top()]
    is its front. *)
Definition is_heap (v : list T) : Prop :=
  forall i x p,
    (0 < i)%nat ->
    nth_error v i = Some x -> nth_error v ((i - 1) / 2) = Some p ->
    comp p x = false.

(** The contract of the class: [x] may be returned by [top()] ... *)
Definition is_top (q : priority_queue) (x : T) : Prop :=
  In x q /\ forall y, In y q -> comp x y = false.

(** ... and [pop()] removes one occurrence of it. *)
Definition pop_step (q : priority_queue) (x : T) (q' : priority_queue) : Prop :=
  is_top q x /\ Permutation q (x :: q').

(** A run of pops with nothing pushed in between. *)
Inductive pops : priority_queue -> list T -> priority_queue -> Prop :=
| pops_nil q : pops q [] q
| pops_cons q x q1 out q' :
    pop_step q x q1 -> pops q1 out q' -> pops q (x :: out) q'.

(** Popping until [empty()] holds. *)
Fixpoint drain (fuel : nat) (q : priority_queue) : list T :=
  match fuel with
  | O => []
  | Datatypes.S fuel' =>
      match pop q with
      | None => []
      | Some (x, q') => x :: drain fuel' q'
      end
  end.

Definition push_all (xs : list T) (q : priority_queue) : priority_queue :=
  fold_left (fun acc x => push x acc) xs q.

(** No element that a run of pops returns goes after a later one. *)
Definition served_before (a b : T) : Prop := comp a b = false.

End priority_queue.

Arguments priority_queue : clear implicits.

End StdQueue.

(** ** The quantum task scheduler *)

Module Quantum.

Record QuantumTask : Type := mkQuantumTask {
  id : Z;
  priority : Z;            (* the smaller the number, the higher the priority *)
  is_critical : bool;
  duration : Z;            (* milliseconds *)
  required_qubits : Z;
  is_split : bool          (* default member initialiser: false *)
}.

(** Assignments to one member of a task. *)
Definition set_id (t : QuantumTask) (v : Z) : QuantumTask :=
  mkQuantumTask v (priority t) (is_critical t) (duration t) (required_qubits t) (is_split t).
Definition set_duration (t : QuantumTask) (v : Z) : QuantumTask :=
  mkQuantumTask (id t) (priority t) (is_critical t) v (required_qubits t) (is_split t).
Definition set_required_qubits (t : QuantumTask) (v : Z) : QuantumTask :=
  mkQuantumTask (id t) (priority t) (is_critical t) (duration t) v (is_split t).
Definition set_is_split (t : QuantumTask) (v : bool) : QuantumTask :=
  mkQuantumTask (id t) (priority t) (is_critical t) (duration t) (required_qubits t) v.

(** [ComparePriority::operator()]: [true] when [t1] goes after [t2]. *)
Definition ComparePriority (t1 t2 : QuantumTask) : bool :=
  if negb (priority t1 =? priority t2) then
    priority t2 <? priority t1
  else if negb (Bool.eqb (is_critical t1) (is_critical t2)) then
    negb (is_critical t1)
  else
    duration t2 <? duration t1.

(** The globals: [task_queue], the counter of the semaphore
    [quantum_processors], [failed_processor], and the number of calls made
    to [rand()] so far. *)
Record State : Type := mkState {
  task_queue : StdQueue.priority_queue QuantumTask;
  quantum_processors : Z;
  failed_processor : Z;
  rand_calls : nat
}.

Definition set_task_queue (s : State) (q : list QuantumTask) : State :=
  mkState q (quantum_processors s) (failed_processor s) (rand_calls s).
Definition set_quantum_processors (s : State) (n : Z) : State :=
  mkState (task_queue s) n (failed_processor s) (rand_calls s).
Definition set_failed_processor (s : State) (p : Z) : State :=
  mkState (task_queue s) (quantum_processors s) p (rand_calls s).
Definition set_rand_calls (s : State) (n : nat) : State :=
  mkState (task_queue s) (quantum_processors s) (failed_processor s) n.

(** What a thread does that others can see: the lines it prints, its
    calls on the semaphore, its sleeps. *)
Inductive Event : Type :=
| Print_failed (task_id processor_id : Z)
| Acquire
| Release
| Print_started (processor_id : Z) (task : QuantumTask)
| Sleep_ms (ms : Z)
| Print_completed (processor_id task_id : Z)
| Print_splitting (processor_id task_id : Z)
| Print_added (task : QuantumTask)
| Print_processor_failed (processor_id : Z).

Definition is_acquire (e : Event) : bool :=
  match e with Acquire => true | _ => false end.

Definition Task (A : Type) : Type := M State Event A.

(** The state at program start: an empty queue, four processors, no
    failed processor. *)
Definition initial_state : State := mkState [] 4 (-1) 0.

Section Program.

(** [rand_seq n] is the value the [n]-th call of [rand()] returns. *)
Variable rand_seq : nat -> Z.

Definition rand : Task Z :=
  (s <- get ;;
   put (set_rand_calls s (Datatypes.S (rand_calls s))) ;;
   ret (rand_seq (rand_calls s)))%exec.

(** [quantum_processors.acquire()]: the call is recorded, then the thread
    takes a unit or waits. *)
Definition acquire : Task unit :=
  (emit Acquire ;;
   s <- get ;;
   if 0 <? quantum_processors s
   then put (set_quantum_processors s (quantum_processors s - 1))
   else block)%exec.

Definition release : Task unit :=
  (emit Release ;;
   modify (fun s => set_quantum_processors s (quantum_processors s + 1)))%exec.

Definition process_quantum_task (task : QuantumTask) (processor_id : Z) : Task unit :=
  (s <- get ;;
   if processor_id =? failed_processor s then
     emit (Print_failed (id task) processor_id)
   else
     acquire ;;
     emit (Print_started processor_id task) ;;
     emit (Sleep_ms (duration task)) ;;
     release ;;
     emit (Print_completed processor_id (id task)))%exec.

(** [split_task], given the value its call of [rand()] returned. *)
Definition split_task (original_task : QuantumTask) (rand_value : Z) : QuantumTask :=
  let new_task := original_task in
  let new_task := set_id new_task (wrap_int (id original_task * 100 + cmod rand_value 100)) in
  let new_task := set_duration new_task (cdiv (duration original_task) 2) in
  let new_task := set_required_qubits new_task (cdiv (required_qubits original_task) 2) in
  let new_task := set_is_split new_task true in
  new_task.

Definition push_task (task : QuantumTask) : Task unit :=
  modify (fun s => set_task_queue s (StdQueue.push task (task_queue s))).

Definition add_quantum_task (id priority : Z) (is_critical : bool) (duration qubits : Z)
  : Task unit :=
  (let task := mkQuantumTask id priority is_critical duration qubits false in
   push_task task ;;
   emit (Print_added task))%exec.

(** The test of the worker on the task it dequeued, and its threshold. *)
Definition split_threshold : Z := 5.

Definition should_split (task : QuantumTask) : bool :=
  (split_threshold <? required_qubits task) && negb (is_split task).

(** The passes of the loop a queued task still costs: a task to split is
    dequeued once itself and once for each of its two halves. *)
Definition task_passes (task : QuantumTask) : nat :=
  if should_split task then 3%nat else 1%nat.

Definition pending_passes (q : list QuantumTask) : nat :=
  list_sum (map task_passes q).

(** One pass through the body of the loop of [process_quantum_tasks]. *)
Definition worker_iteration (processor_id : Z) : Task loop_ctl :=
  (s <- get ;;
   if StdQueue.empty (task_queue s) then ret Break
   else
     match StdQueue.pop ComparePriority (task_queue s) with
     | None => ret Break
     | Some (task, rest) =>
         put (set_task_queue s rest) ;;
         if should_split task then
           emit (Print_splitting processor_id (id task)) ;;
           r1 <- rand ;;
           let sub_task1 := split_task task r1 in
           r2 <- rand ;;
           let sub_task2 := split_task task r2 in
           push_task sub_task1 ;;
           push_task sub_task2 ;;
           ret Continue
         else
           process_quantum_task task processor_id ;;
           ret Continue
     end)%exec.

Definition process_quantum_tasks (fuel : nat) (processor_id : Z) : Task unit :=
  while_true fuel (worker_iteration processor_id).

(** A processor can serve a task when a unit of the semaphore is free or
    when it is the failed one, which takes none. *)
Definition can_run (processor_id : Z) (s : State) : Prop :=
  0 < quantum_processors s \/ processor_id = failed_processor s.

(** The state a split leaves: the two halves pushed, two more calls of
    [rand()]. *)
Definition after_split (s : State) (task : QuantumTask) (rest : list QuantumTask) : State :=
  mkState
    (StdQueue.push (split_task task (rand_seq (Datatypes.S (rand_calls s))))
       (StdQueue.push (split_task task (rand_seq (rand_calls s))) rest))
    (quantum_processors s) (failed_processor s)
    (Datatypes.S (Datatypes.S (rand_calls s))).

(** The body of [simulate_processor_failure]. *)
Definition simulate_processor_failure (processor_id : Z) : Task unit :=
  (emit (Sleep_ms 2000) ;;
   modify (fun s => set_failed_processor s processor_id) ;;
   emit (Print_processor_failed processor_id))%exec.

(** The ten tasks [main] enqueues. *)
Definition main_tasks : Task unit :=
  (add_quantum_task 1 1 true 2000 8 ;;
   add_quantum_task 2 3 false 3000 6 ;;
   add_quantum_task 3 2 false 1500 4 ;;
   add_quantum_task 4 1 false 2500 10 ;;
   add_quantum_task 5 4 true 1000 3 ;;
   add_quantum_task 6 2 true 1800 7 ;;
   add_quantum_task 7 3 false 2200 5 ;;
   add_quantum_task 8 1 true 500 2 ;;
   add_quantum_task 9 5 false 4000 9 ;;
   add_quantum_task 10 2 false 1200 3)%exec.

End Program.

(** The rank the queue serves by: smaller is served first. *)
Definition rank (t : QuantumTask) : Z * bool * Z :=
  (priority t, negb (is_critical t), duration t).

End Quantum.

(** ** The monitoring server *)

Module Monitoring.

Record MonitoringData : Type := mkMonitoringData {
  station_id : Z;
  priority : Z;            (* 1 is the highest *)
  is_critical : bool;
  payload : string;
  size : Z                 (* size_t: bytes *)
}.

(** [ComparePriority::operator()]: [true] when [d1] goes after [d2]. *)
Definition ComparePriority (d1 d2 : MonitoringData) : bool :=
  if negb (priority d1 =? priority d2) then
    priority d2 <? priority d1
  else if negb (Bool.eqb (is_critical d1) (is_critical d2)) then
    negb (is_critical d1)
  else
    size d2 <? size d1.

(** The globals, and the function-local static [emergency_counter] of
    [load_monitor]. *)
Record State : Type := mkState {
  data_queue : StdQueue.priority_queue MonitoringData;
  server_capacity : Z;     (* counter of the semaphore *)
  current_load : Z;
  emergency_mode : bool;
  active_handlers : Z;
  emergency_counter : Z
}.

Definition set_data_queue (s : State) (q : list MonitoringData) : State :=
  mkState q (server_capacity s) (current_load s) (emergency_mode s)
          (active_handlers s) (emergency_counter s).
Definition set_server_capacity (s : State) (n : Z) : State :=
  mkState (data_queue s) n (current_load s) (emergency_mode s)
          (active_handlers s) (emergency_counter s).
Definition set_current_load (s : State) (l : Z) : State :=
  mkState (data_queue s) (server_capacity s) l (emergency_mode s)
          (active_handlers s) (emergency_counter s).
Definition set_emergency_mode (s : State) (b : bool) : State :=
  mkState (data_queue s) (server_capacity s) (current_load s) b
          (active_handlers s) (emergency_counter s).
Definition set_active_handlers (s : State) (n : Z) : State :=
  mkState (data_queue s) (server_capacity s) (current_load s) (emergency_mode s)
          n (emergency_counter s).
Definition set_emergency_counter (s : State) (n : Z) : State :=
  mkState (data_queue s) (server_capacity s) (current_load s) (emergency_mode s)
          (active_handlers s) n.

Definition initial_state : State := mkState [] 5 0 false 5 0.

Inductive Event : Type :=
| Acquire
| Release
| Try_acquire (taken : bool)
| Print_processing (data : MonitoringData)
| Sleep_ms (ms : Z)
| Print_processed (station_id : Z)
| Print_dropped_overload (station_id : Z)
| Print_dropped_emergency (station_id : Z)
| Print_sent (data : MonitoringData)
| Print_handler_added (load handlers : Z)
| Print_handler_removed (load handlers : Z)
| Print_emergency_on
| Print_emergency_off.

Definition Task (A : Type) : Type := M State Event A.

Definition acquire : Task unit :=
  (emit Acquire ;;
   s <- get ;;
   if 0 <? server_capacity s
   then put (set_server_capacity s (server_capacity s - 1))
   else block)%exec.

Definition release : Task unit :=
  (emit Release ;;
   modify (fun s => set_server_capacity s (server_capacity s + 1)))%exec.

Definition try_acquire : Task bool :=
  (s <- get ;;
   if 0 <? server_capacity s
   then put (set_server_capacity s (server_capacity s - 1)) ;;
        emit (Try_acquire true) ;; ret true
   else emit (Try_acquire false) ;; ret false)%exec.

Definition process_data (data : MonitoringData) : Task unit :=
  (acquire ;;
   emit (Print_processing data) ;;
   emit (Sleep_ms (cdiv (size data) 100)) ;;
   release ;;
   emit (Print_processed (station_id data)))%exec.

(** The overload threshold and the two priority cutoffs of
    [monitoring_station]. *)
Definition overload_threshold : Z := 80.
Definition overload_cutoff : Z := 3.
Definition emergency_cutoff : Z := 2.

(** [std::to_string] on an [int]. *)
Definition to_string (z : Z) : string := NilZero.string_of_int (Z.to_int z).

(** The record a station builds from the draws of its three distributions. *)
Definition generate (station : Z) (priority_draw : Z) (critical_draw : bool)
  (size_draw : Z) : MonitoringData :=
  mkMonitoringData station priority_draw critical_draw
    ("Данные мониторинга от станции " ++ to_string station)%string size_draw.

(** One pass through the loop of [monitoring_station]; the draws of the
    three distributions and of the pause are its arguments. *)
Definition monitoring_station_iteration
  (station : Z) (priority_draw : Z) (critical_draw : bool) (size_draw : Z)
  (pause_draw : Z) : Task loop_ctl :=
  (let data := generate station priority_draw critical_draw size_draw in
   s <- get ;;
   if (overload_threshold <? current_load s) && negb (is_critical data)
      && (overload_cutoff <? priority data) then
     emit (Print_dropped_overload station) ;;
     emit (Sleep_ms 500) ;;
     ret Continue
   else if emergency_mode s && (emergency_cutoff <? priority data)
           && negb (is_critical data) then
     emit (Print_dropped_emergency station) ;;
     emit (Sleep_ms 200) ;;
     ret Continue
   else
     modify (fun s => set_data_queue s (StdQueue.push data (data_queue s))) ;;
     emit (Print_sent data) ;;
     emit (Sleep_ms (300 + pause_draw)) ;;
     ret Continue)%exec.

(** [monitoring_station], one pass for each quadruple of draws; the loop
    has no exit. *)
Fixpoint monitoring_station (station : Z) (draws : list (Z * bool * Z * Z))
  : Task unit :=
  match draws with
  | [] => out_of_fuel
  | (priority_draw, critical_draw, size_draw, pause_draw) :: rest =>
      (monitoring_station_iteration station priority_draw critical_draw
         size_draw pause_draw ;;
       monitoring_station station rest)%exec
  end.

(** One pass through the loop of [data_handler]. *)
Definition data_handler_iteration : Task loop_ctl :=
  (s <- get ;;
   match (if negb (StdQueue.empty (data_queue s))
          then StdQueue.pop ComparePriority (data_queue s) else None) with
   | Some (data, rest) =>
       put (set_data_queue s rest) ;;
       process_data data ;;
       ret Continue
   | None =>
       emit (Sleep_ms 100) ;;
       ret Continue
   end)%exec.

Definition data_handler (fuel : nat) : Task unit :=
  while_true fuel data_handler_iteration.

(** The bounds of [active_handlers] and the thresholds of [load_monitor]. *)
Definition min_handlers : Z := 5.
Definition max_handlers : Z := 10.
Definition grow_threshold : Z := 80.
Definition shrink_threshold : Z := 50.
Definition emergency_threshold : Z := 95.
Definition emergency_samples : Z := 3.

(** The probing loop [for (int i = 0; i < 4; i++)]. *)
Fixpoint probe (n : nat) : Task unit :=
  match n with
  | O => ret tt
  | Datatypes.S n' =>
      (taken <- try_acquire ;;
       if taken then release else probe n')%exec
  end.

(** The sampling at the head of the loop of [load_monitor]. *)
Definition sample_load : Task Z :=
  (taken <- try_acquire ;;
   let load := (5 - Z.b2z taken) * 20 in
   probe 4 ;;
   ret load)%exec.

(** The adaptation of the number of handlers to the load. *)
Definition adapt_capacity (load : Z) : Task unit :=
  (s <- get ;;
   if (grow_threshold <? load) && (active_handlers s <? max_handlers) then
     put (set_active_handlers s (wrap_int (active_handlers s + 1))) ;;
     release ;;
     s' <- get ;;
     emit (Print_handler_added load (active_handlers s'))
   else if (load <? shrink_threshold) && (min_handlers <? active_handlers s) then
     put (set_active_handlers s (wrap_int (active_handlers s - 1))) ;;
     acquire ;;
     s' <- get ;;
     emit (Print_handler_removed load (active_handlers s'))
   else ret tt)%exec.

(** The check for the emergency. *)
Definition check_emergency (load : Z) : Task unit :=
  (if emergency_threshold <? load then
     modify (fun s => set_emergency_counter s (wrap_int (emergency_counter s + 1))) ;;
     s <- get ;;
     if (emergency_samples <? emergency_counter s) && negb (emergency_mode s) then
       put (set_emergency_mode s true) ;;
       emit Print_emergency_on
     else ret tt
   else
     modify (fun s => set_emergency_counter s 0) ;;
     s <- get ;;
     if emergency_mode s then
       put (set_emergency_mode s false) ;;
       emit Print_emergency_off
     else ret tt)%exec.

(** The loop body of [load_monitor] from [current_load = load] on. *)
Definition load_monitor_step (load : Z) : Task loop_ctl :=
  (modify (fun s => set_current_load s load) ;;
   adapt_capacity load ;;
   check_emergency load ;;
   emit (Sleep_ms 500) ;;
   ret Continue)%exec.

(** One pass through the loop of [load_monitor]. *)
Definition load_monitor_iteration : Task loop_ctl :=
  (load <- sample_load ;;
   load_monitor_step load)%exec.

Definition load_monitor (fuel : nat) : Task unit :=
  while_true fuel load_monitor_iteration.

(** The monitor fed a sequence of samples, one step for each. *)
Fixpoint monitor_samples (loads : list Z) : Task unit :=
  match loads with
  | [] => ret tt
  | load :: rest => (load_monitor_step load ;; monitor_samples rest)%exec
  end.

(** The number of samples above the emergency threshold at the end of a
    sequence of samples, after [n] such samples before it. *)
Definition streak_from (n : nat) (loads : list Z) : nat :=
  fold_left (fun k load => if emergency_threshold <? load then Datatypes.S k else O)
    loads n.

Definition streak (loads : list Z) : nat := streak_from 0 loads.

(** The monitor running alone never waits for a unit when the semaphore
    holds the units it released itself. *)
Definition monitor_inv (s : State) : Prop :=
  min_handlers <= active_handlers s <= max_handlers
  /\ active_handlers s - min_handlers <= server_capacity s.

(** The rank the queue serves by: smaller is served first. *)
Definition rank (d : MonitoringData) : Z * bool * Z :=
  (priority d, negb (is_critical d), size d).

End Monitoring.

(** ** Ranks *)

(** Lexicographic order on ranks, [false] before [true] in the middle. *)
Definition rank_le (r1 r2 : Z * bool * Z) : Prop :=
  let '(p1, n1, c1) := r1 in
  let '(p2, n2, c2) := r2 in
  p1 < p2 \/
  (p1 = p2 /\ ((n1 = false /\ n2 = true) \/ (n1 = n2 /\ c1 <= c2))).

Definition rank_leb (r1 r2 : Z * bool * Z) : bool :=
  let '(p1, n1, c1) := r1 in
  let '(p2, n2, c2) := r2 in
  (p1 <? p2) ||
  ((p1 =? p2) && ((negb n1 && n2) || (Bool.eqb n1 n2 && (c1 <=? c2)))).

(** A list served in rank order. *)
Definition quantum_rank_order : list Quantum.QuantumTask -> Prop :=
  StronglySorted (fun a b => rank_le (Quantum.rank a) (Quantum.rank b)).

Definition monitoring_rank_order : list Monitoring.MonitoringData -> Prop :=
  StronglySorted (fun a b => rank_le (Monitoring.rank a) (Monitoring.rank b)).

(** ** Reading traces and queues *)

(** The number of events of a trace that [p] holds of. *)
Definition count {E : Type} (p : E -> bool) (tr : list E) : nat :=
  length (filter p tr).

Definition sum_Z (l : list Z) : Z := fold_right Z.add 0 l.

(** An outcome that waits in [acquire()]. *)
Definition waits {S E A : Type} (o : outcome S E A) : bool :=
  match o with Blocked _ _ => true | _ => false end.

Module QuantumTrace.
Import Quantum.

Definition is_release (e : Event) : bool :=
  match e with Release => true | _ => false end.

(** A task handed to [process_quantum_task]: it either fails at once or
    starts. *)
Definition is_dispatch (e : Event) : bool :=
  match e with Print_failed _ _ | Print_started _ _ => true | _ => false end.

Definition is_started (e : Event) : bool :=
  match e with Print_started _ _ => true | _ => false end.

Definition is_failed (e : Event) : bool :=
  match e with Print_failed _ _ => true | _ => false end.

Definition is_splitting (e : Event) : bool :=
  match e with Print_splitting _ _ => true | _ => false end.

(** The milliseconds a trace sleeps in all: [sleep_for] returns at once
    when its argument is not positive. *)
Definition slept (ms : Z) : Z := Z.max 0 ms.

Definition sleep_of (e : Event) : Z :=
  match e with Sleep_ms ms => slept ms | _ => 0 end.

Definition total_sleep (tr : list Event) : Z := sum_Z (map sleep_of tr).

(** What a queued task comes to: one dispatch, or two when it is split
    first; a sleep of its own duration, or two of half of it. *)
Definition dispatches_of (task : QuantumTask) : nat :=
  if should_split task then 2%nat else 1%nat.

Definition time_of (task : QuantumTask) : Z :=
  if should_split task
  then 2 * slept (cdiv (duration task) 2)
  else slept (duration task).

Definition dispatches_due (q : list QuantumTask) : nat :=
  list_sum (map dispatches_of q).

Definition time_due (q : list QuantumTask) : Z := sum_Z (map time_of q).

Definition splits_due (q : list QuantumTask) : nat := count should_split q.

Section passes.
Variable rand_seq : nat -> Z.
Variable processor_id : Z.

(** What one pass of the worker can do. *)
Inductive pass : State -> outcome State Event loop_ctl -> Prop :=
| pass_empty s :
    task_queue s = [] ->
    pass s (Ret Break s [])
| pass_split s task rest :
    StdQueue.pop ComparePriority (task_queue s) = Some (task, rest) ->
    should_split task = true ->
    pass s (Ret Continue (after_split rand_seq s task rest)
              [Print_splitting processor_id (id task)])
| pass_failed s task rest :
    StdQueue.pop ComparePriority (task_queue s) = Some (task, rest) ->
    should_split task = false ->
    processor_id = failed_processor s ->
    pass s (Ret Continue (set_task_queue s rest)
              [Print_failed (id task) processor_id])
| pass_executed s task rest :
    StdQueue.pop ComparePriority (task_queue s) = Some (task, rest) ->
    should_split task = false ->
    processor_id <> failed_processor s -> 0 < quantum_processors s ->
    pass s (Ret Continue (set_task_queue s rest)
              [Acquire; Print_started processor_id task;
               Sleep_ms (duration task); Release;
               Print_completed processor_id (id task)])
| pass_waits s task rest :
    StdQueue.pop ComparePriority (task_queue s) = Some (task, rest) ->
    should_split task = false ->
    processor_id <> failed_processor s -> quantum_processors s <= 0 ->
    pass s (Blocked (set_task_queue s rest) [Acquire]).

End passes.

(** The ids [split_task] computes without overflow. *)
Definition splittable_id (task : QuantumTask) : Prop :=
  1 <= id task /\ id task * 100 + 99 <= int_max.

End QuantumTrace.

Module MonitoringTrace.
Import Monitoring.

(** The two tests of [monitoring_station] on the record it generated. *)
Definition sheds (s : State) (data : MonitoringData) : bool :=
  ((overload_threshold <? current_load s) && negb (is_critical data)
   && (overload_cutoff <? priority data))
  || (emergency_mode s && (emergency_cutoff <? priority data)
      && negb (is_critical data)).

(** The events of the semaphore [server_capacity]. *)
Definition is_semaphore (e : Event) : bool :=
  match e with Acquire | Release | Try_acquire _ => true | _ => false end.

(** The records a station builds from a list of draws. *)
Definition generated (station : Z) (draws : list (Z * bool * Z * Z))
  : list MonitoringData :=
  map (fun d => let '(p, c, sz, _) := d in generate station p c sz) draws.

End MonitoringTrace.

(** * Properties *)

(** ** Machine integers *)

Lemma wrap_int_id z : in_int z -> wrap_int z = z.
Proof.
  unfold in_int, int_min, int_max, wrap_int. intros H.
  rewrite Z.mod_small; lia.
Qed.

Lemma wrap_int_range z : in_int (wrap_int z).
Proof.
  unfold in_int, int_min, int_max, wrap_int.
  pose proof (Z.mod_pos_bound (z + 2 ^ 31) (2 ^ 32) ltac:(lia)). lia.
Qed.

Lemma cdiv2_nonneg a : 0 <= a -> cdiv a 2 = a / 2.
Proof. intros H. unfold cdiv. apply Z.quot_div_nonneg; lia. Qed.

Lemma cdiv2_bounds a : 0 <= a -> 2 * cdiv a 2 <= a < 2 * cdiv a 2 + 2.
Proof.
  intros H. rewrite cdiv2_nonneg by assumption.
  pose proof (Z.div_mod a 2 ltac:(lia)).
  pose proof (Z.mod_pos_bound a 2 ltac:(lia)). lia.
Qed.

(** ** Sequencing *)

Section bind_facts.
Context {S E A B : Type}.
Variables (m : M S E A) (k : A -> M S E B).

Lemma bind_ret s a s1 tr1 :
  m s = Ret a s1 tr1 ->
  trace (bind m k s) = tr1 ++ trace (k a s1)
  /\ final (bind m k s) = final (k a s1)
  /\ returns (bind m k s) = returns (k a s1).
Proof.
  intros Hm. unfold bind. rewrite Hm. destruct (k a s1); simpl; auto.
Qed.

Lemma bind_ret_ret s a s1 tr1 b s2 tr2 :
  m s = Ret a s1 tr1 -> k a s1 = Ret b s2 tr2 ->
  bind m k s = Ret b s2 (tr1 ++ tr2).
Proof. intros Hm Hk. unfold bind. now rewrite Hm, Hk. Qed.

Lemma bind_ret_inv s b s2 tr :
  bind m k s = Ret b s2 tr ->
  exists a s1 tr1 tr2,
    m s = Ret a s1 tr1 /\ k a s1 = Ret b s2 tr2 /\ tr = tr1 ++ tr2.
Proof.
  unfold bind. destruct (m s) as [a s1 tr1 | |]; try discriminate.
  destruct (k a s1) as [b' s2' tr2 | |] eqn:Ek; try discriminate.
  intros [= <- <- <-]. exists a, s1, tr1, tr2. auto.
Qed.

Lemma bind_returns s :
  returns (bind m k s) = true ->
  exists a s1 tr1, m s = Ret a s1 tr1 /\ returns (k a s1) = true.
Proof.
  unfold bind. destruct (m s) as [a s1 tr1 | |]; simpl; try discriminate.
  intros H. exists a, s1, tr1. split; [reflexivity |].
  destruct (k a s1); simpl in *; congruence.
Qed.

End bind_facts.

Lemma while_true_step {S E} (body : M S E loop_ctl) fuel :
  while_true (Datatypes.S fuel) body
  = bind body (fun c => match c with
                        | Break => ret tt
                        | Continue => while_true fuel body
                        end).
Proof. reflexivity. Qed.

Section while_facts.
Context {S E : Type}.
Variable body : M S E loop_ctl.

Lemma while_true_break fuel s s1 tr1 :
  body s = Ret Break s1 tr1 ->
  while_true (Datatypes.S fuel) body s = Ret tt s1 tr1.
Proof.
  intros Hb. rewrite while_true_step. unfold bind. rewrite Hb.
  simpl. now rewrite app_nil_r.
Qed.

Lemma while_true_continue fuel s s1 tr1 :
  body s = Ret Continue s1 tr1 ->
  trace (while_true (Datatypes.S fuel) body s) = tr1 ++ trace (while_true fuel body s1)
  /\ final (while_true (Datatypes.S fuel) body s) = final (while_true fuel body s1)
  /\ returns (while_true (Datatypes.S fuel) body s) = returns (while_true fuel body s1).
Proof.
  intros Hb. rewrite while_true_step.
  exact (bind_ret body (fun c => match c with
                               | Break => ret tt
                               | Continue => while_true fuel body
                               end) s Continue s1 tr1 Hb).
Qed.

Lemma while_true_continue_ret fuel s s1 tr1 s2 tr2 :
  body s = Ret Continue s1 tr1 ->
  while_true fuel body s1 = Ret tt s2 tr2 ->
  while_true (Datatypes.S fuel) body s = Ret tt s2 (tr1 ++ tr2).
Proof.
  intros Hb Hw. rewrite while_true_step.
  exact (bind_ret_ret body (fun c => match c with
                               | Break => ret tt
                               | Continue => while_true fuel body
                               end) s Continue s1 tr1 tt s2 tr2 Hb Hw).
Qed.

Lemma while_true_invariant (P : S -> Prop) :
  (forall s, P s -> P (final (body s))) ->
  forall fuel s, P s -> P (final (while_true fuel body s)).
Proof.
  intros Hbody. induction fuel as [| fuel IH]; intros s Hs; [exact Hs |].
  pose proof (Hbody s Hs) as Hb.
  destruct (body s) as [[] s1 tr1 | s1 tr1 | s1 tr1] eqn:Eb.
  - now rewrite (while_true_break fuel s s1 tr1 Eb).
  - destruct (while_true_continue fuel s s1 tr1 Eb) as (_ & -> & _).
    now apply IH.
  - rewrite while_true_step. unfold bind. now rewrite Eb.
  - rewrite while_true_step. unfold bind. now rewrite Eb.
Qed.

End while_facts.

(** ** The priority queue *)

Module StdQueueFacts.
Import StdQueue.

Section contract.
Context {T : Type}.
Variable comp : T -> T -> bool.


Lemma pops_subset q out q' :
  pops comp q out q' -> forall y, In y out \/ In y q' -> In y q.
Proof.
  induction 1 as [q | q x q1 out q' [Htop Hperm] _ IH]; intros y Hy.
  - destruct Hy as [[] | Hy]; exact Hy.
  - apply (Permutation_in y (Permutation_sym Hperm)).
    destruct Hy as [[<- | Hy] | Hy].
    + now left.
    + right. apply IH. now left.
    + right. apply IH. now right.
Qed.

Lemma pops_sorted q out q' :
  pops comp q out q' -> StronglySorted (served_before comp) out.
Proof.
  induction 1 as [q | q x q1 out q' Hstep Hrun IH].
  - constructor.
  - constructor; [exact IH |].
    destruct Hstep as [[_ Hmax] Hperm].
    apply Forall_forall. intros y Hy. apply Hmax.
    apply (Permutation_in y (Permutation_sym Hperm)). right.
    apply (pops_subset _ _ _ Hrun). now left.
Qed.

Lemma pops_perm q out q' :
  pops comp q out q' -> Permutation (out ++ q') q.
Proof.
  induction 1 as [q | q x q1 out q' [_ Hperm] _ IH]; [reflexivity |].
  rewrite Hperm. simpl. constructor. exact IH.
Qed.

Lemma pops_length q out q' :
  pops comp q out q' -> length q = (length out + length q')%nat.
Proof.
  induction 1 as [q | q x q1 out q' [_ Hperm] _ IH]; [reflexivity |].
  rewrite (Permutation_length Hperm). simpl. now rewrite IH.
Qed.

Lemma select_perm q : forall x m r,
  select comp x q = (m, r) -> Permutation (x :: q) (m :: r).
Proof.
  induction q as [| y q IH]; intros x m r; simpl.
  - intros [= <- <-]. reflexivity.
  - destruct (comp x y).
    + destruct (select comp y q) as [m' r'] eqn:E. intros [= <- <-].
      transitivity (x :: m' :: r'); [constructor; now apply IH | apply perm_swap].
    + destruct (select comp x q) as [m' r'] eqn:E. intros [= <- <-].
      transitivity (y :: x :: q); [apply perm_swap |].
      transitivity (y :: m' :: r'); [constructor; now apply IH | apply perm_swap].
Qed.

Lemma select_length q x :
  length (snd (select comp x q)) = length q.
Proof.
  destruct (select comp x q) as [m r] eqn:E.
  apply select_perm, Permutation_length in E. simpl in *. lia.
Qed.

Lemma push_perm x (q : list T) : Permutation (push x q) (x :: q).
Proof. unfold push. symmetry. apply Permutation_cons_append. Qed.

Lemma push_size x (q : list T) : size (push x q) = Datatypes.S (size q).
Proof. unfold size, push. rewrite length_app. simpl. lia. Qed.

Lemma push_all_perm xs : forall q : list T,
  Permutation (push_all xs q) (xs ++ q).
Proof.
  induction xs as [| x xs IH]; intros q; simpl; [reflexivity |].
  unfold push_all in *. simpl. rewrite IH, push_perm.
  symmetry. apply Permutation_middle.
Qed.

Lemma pop_size (q : list T) x q' :
  pop comp q = Some (x, q') -> size q = Datatypes.S (size q').
Proof.
  destruct q as [| y r]; [discriminate |]. simpl. intros [= E].
  pose proof (select_length r y) as L. rewrite E in L. simpl in *.
  unfold size. simpl. lia.
Qed.

Lemma pop_perm (q : list T) x q' :
  pop comp q = Some (x, q') -> Permutation q (x :: q').
Proof.
  destruct q as [| y r]; [discriminate |]. simpl. intros [= E].
  now apply select_perm.
Qed.

Lemma pop_empty (q : list T) : pop comp q = None <-> empty q = true.
Proof. destruct q; simpl; split; congruence. Qed.

Lemma pop_nonempty (q : list T) :
  empty q = false -> exists x q', pop comp q = Some (x, q').
Proof.
  destruct q as [| y r]; [discriminate |]. intros _. simpl.
  destruct (select comp y r) as [m r']. now exists m, r'.
Qed.

(** The comparator is a strict weak ordering, as the class requires. *)
Hypothesis comp_asym : forall a b, comp a b = true -> comp b a = false.
Hypothesis comp_negtrans :
  forall a b c, comp a b = false -> comp b c = false -> comp a c = false.

Lemma comp_trans a b c : comp a b = true -> comp b c = true -> comp a c = true.
Proof.
  intros Hab Hbc. destruct (comp a c) eqn:Hac; [reflexivity |].
  pose proof (comp_negtrans _ _ _ (comp_asym _ _ Hab) Hac). congruence.
Qed.

Lemma comp_irrefl a : comp a a = false.
Proof.
  destruct (comp a a) eqn:E; [| reflexivity].
  pose proof (comp_asym _ _ E). congruence.
Qed.

Lemma select_greatest q : forall x m r,
  select comp x q = (m, r) -> forall y, In y (x :: q) -> comp m y = false.
Proof.
  induction q as [| y q IH]; intros x m r; simpl.
  - intros [= <- <-] z [<- | []]. apply comp_irrefl.
  - destruct (comp x y) eqn:Hxy.
    + destruct (select comp y q) as [m' r'] eqn:E. intros [= <- <-] z Hz.
      pose proof (IH _ _ _ E) as Hm.
      destruct Hz as [<- | Hz]; [| now apply Hm].
      destruct (comp m' x) eqn:Hmx; [| reflexivity].
      pose proof (comp_trans _ _ _ Hmx Hxy) as Hmy.
      rewrite (Hm y (or_introl eq_refl)) in Hmy. discriminate.
    + destruct (select comp x q) as [m' r'] eqn:E. intros [= <- <-] z Hz.
      pose proof (IH _ _ _ E) as Hm.
      destruct Hz as [<- | [<- | Hz]].
      * apply Hm. now left.
      * apply comp_negtrans with x; [apply Hm; now left | exact Hxy].
      * apply Hm. now right.
Qed.

(** The front of a heap is a greatest element: what [top()] returns on
    the heap that [push_heap] and [pop_heap] maintain meets [is_top]. *)
Lemma heap_front_is_top (v : list T) x :
  is_heap comp v -> nth_error v 0 = Some x -> is_top comp v x.
Proof.
  intros Hheap Hfront. split; [now apply (nth_error_In v 0) |].
  assert (G : forall i y, nth_error v i = Some y -> comp x y = false).
  { induction i as [i IH] using (well_founded_induction lt_wf). intros y Hy.
    destruct i as [| i].
    - rewrite Hfront in Hy. injection Hy as <-. apply comp_irrefl.
    - assert (Hlt : (Datatypes.S i < length v)%nat)
        by (apply nth_error_Some; congruence).
      assert (Hpar : ((Datatypes.S i - 1) / 2 < Datatypes.S i)%nat).
      { apply Nat.Div0.div_lt_upper_bound. lia. }
      destruct (nth_error v ((Datatypes.S i - 1) / 2)) as [p |] eqn:Hp.
      + apply comp_negtrans with p.
        * apply (IH _ Hpar p Hp).
        * apply (Hheap (Datatypes.S i) y p); [lia | exact Hy | exact Hp].
      + apply nth_error_None in Hp. lia. }
  intros y Hy. apply In_nth_error in Hy. destruct Hy as [i Hi].
  now apply (G i).
Qed.

(** [pop] meets the contract of the class. *)
Lemma pop_pop_step (q : list T) x q' :
  pop comp q = Some (x, q') -> pop_step comp q x q'.
Proof.
  destruct q as [| y r]; [discriminate |]. simpl. intros [= E].
  pose proof (select_perm _ _ _ _ E) as Hperm.
  split; [split |]; [| now apply (select_greatest _ _ _ _ E) | exact Hperm].
  apply (Permutation_in x (Permutation_sym Hperm)). now left.
Qed.

(** Draining a queue is a run of pops that empties it. *)
Lemma drain_pops : forall fuel (q : list T),
  (length q <= fuel)%nat -> pops comp q (drain comp fuel q) [].
Proof.
  induction fuel as [| fuel IH]; intros q Hlen.
  - destruct q; [constructor | simpl in Hlen; lia].
  - simpl. destruct (pop comp q) as [[x q'] |] eqn:E.
    + apply pops_cons with q'; [apply pop_pop_step; exact E |].
      apply IH. apply pop_size in E. unfold size in E. lia.
    + apply pop_empty in E. destruct q; [constructor | discriminate].
Qed.

End contract.
End StdQueueFacts.

(** ** The two comparators *)

Lemma rank_leb_spec r1 r2 : rank_leb r1 r2 = true <-> rank_le r1 r2.
Proof.
  destruct r1 as [[p1 n1] c1], r2 as [[p2 n2] c2]. unfold rank_leb, rank_le.
  rewrite orb_true_iff, andb_true_iff, orb_true_iff, !andb_true_iff.
  rewrite Z.ltb_lt, Z.eqb_eq, Z.leb_le, negb_true_iff, eqb_true_iff.
  tauto.
Qed.

Ltac comparator_cases :=
  repeat match goal with
    | |- context [Z.eqb ?a ?b] => destruct (Z.eqb_spec a b); simpl
    | |- context [Z.ltb ?a ?b] => destruct (Z.ltb_spec a b); simpl
    end;
  intuition (try discriminate; try lia).

Lemma quantum_compare_rank (t1 t2 : Quantum.QuantumTask) :
  Quantum.ComparePriority t1 t2 = false <->
  rank_le (Quantum.rank t1) (Quantum.rank t2).
Proof.
  unfold Quantum.ComparePriority, Quantum.rank, rank_le.
  destruct t1 as [i1 p1 c1 d1 q1 s1], t2 as [i2 p2 c2 d2 q2 s2]. simpl.
  destruct c1, c2; simpl; comparator_cases.
Qed.

Lemma monitoring_compare_rank (d1 d2 : Monitoring.MonitoringData) :
  Monitoring.ComparePriority d1 d2 = false <->
  rank_le (Monitoring.rank d1) (Monitoring.rank d2).
Proof.
  unfold Monitoring.ComparePriority, Monitoring.rank, rank_le.
  destruct d1 as [i1 p1 c1 t1 z1], d2 as [i2 p2 c2 t2 z2]. simpl.
  destruct c1, c2; simpl; comparator_cases.
Qed.

Lemma rank_le_trans r1 r2 r3 : rank_le r1 r2 -> rank_le r2 r3 -> rank_le r1 r3.
Proof.
  destruct r1 as [[p1 n1] c1], r2 as [[p2 n2] c2], r3 as [[p3 n3] c3].
  unfold rank_le. destruct n1, n2, n3; intuition (try discriminate; try lia).
Qed.

Lemma rank_le_total r1 r2 : rank_le r1 r2 \/ rank_le r2 r1.
Proof.
  destruct r1 as [[p1 n1] c1], r2 as [[p2 n2] c2].
  unfold rank_le. destruct n1, n2, (Z.lt_total p1 p2) as [|[|]];
    try lia; destruct (Z.le_ge_cases c1 c2); intuition lia.
Qed.

Lemma rank_le_antisym_lt r1 r2 : ~ rank_le r1 r2 -> rank_le r2 r1.
Proof. destruct (rank_le_total r1 r2); tauto. Qed.

Lemma quantum_compare_asym a b :
  Quantum.ComparePriority a b = true -> Quantum.ComparePriority b a = false.
Proof.
  intros H. apply quantum_compare_rank, rank_le_antisym_lt.
  rewrite <- quantum_compare_rank. congruence.
Qed.

Lemma quantum_compare_negtrans a b c :
  Quantum.ComparePriority a b = false -> Quantum.ComparePriority b c = false ->
  Quantum.ComparePriority a c = false.
Proof. rewrite !quantum_compare_rank. apply rank_le_trans. Qed.

Lemma monitoring_compare_asym a b :
  Monitoring.ComparePriority a b = true -> Monitoring.ComparePriority b a = false.
Proof.
  intros H. apply monitoring_compare_rank, rank_le_antisym_lt.
  rewrite <- monitoring_compare_rank. congruence.
Qed.

Lemma monitoring_compare_negtrans a b c :
  Monitoring.ComparePriority a b = false -> Monitoring.ComparePriority b c = false ->
  Monitoring.ComparePriority a c = false.
Proof. rewrite !monitoring_compare_rank. apply rank_le_trans. Qed.


Lemma StronglySorted_impl {A} (R R' : A -> A -> Prop) l :
  (forall a b, R a b -> R' a b) -> StronglySorted R l -> StronglySorted R' l.
Proof.
  intros HR. induction 1 as [| a l Hs IH Hall]; constructor; [exact IH |].
  revert Hall. apply Forall_impl. intros b. apply HR.
Qed.

Lemma quantum_pops_rank_order q out q' :
  StdQueue.pops Quantum.ComparePriority q out q' -> quantum_rank_order out.
Proof.
  intros H. apply StdQueueFacts.pops_sorted in H. revert H.
  apply StronglySorted_impl. intros a b. apply quantum_compare_rank.
Qed.

Lemma monitoring_pops_rank_order q out q' :
  StdQueue.pops Monitoring.ComparePriority q out q' -> monitoring_rank_order out.
Proof.
  intros H. apply StdQueueFacts.pops_sorted in H. revert H.
  apply StronglySorted_impl. intros a b. apply monitoring_compare_rank.
Qed.

(** Draining what was pushed returns all of it, and each queue meets the
    contract of the class with its comparator. *)
Lemma quantum_drain_all (pushed : list Quantum.QuantumTask) :
  let q := StdQueue.push_all pushed [] in
  let out := StdQueue.drain Quantum.ComparePriority (length q) q in
  StdQueue.pops Quantum.ComparePriority q out [] /\ Permutation out pushed.
Proof.
  intros q out.
  assert (H : StdQueue.pops Quantum.ComparePriority q out []).
  { apply StdQueueFacts.drain_pops;
      [apply quantum_compare_asym | apply quantum_compare_negtrans | lia]. }
  split; [exact H |].
  pose proof (StdQueueFacts.pops_perm _ _ _ _ H) as G.
  rewrite app_nil_r in G. rewrite G. unfold q.
  rewrite StdQueueFacts.push_all_perm. now rewrite app_nil_r.
Qed.

Lemma monitoring_drain_all (pushed : list Monitoring.MonitoringData) :
  let q := StdQueue.push_all pushed [] in
  let out := StdQueue.drain Monitoring.ComparePriority (length q) q in
  StdQueue.pops Monitoring.ComparePriority q out [] /\ Permutation out pushed.
Proof.
  intros q out.
  assert (H : StdQueue.pops Monitoring.ComparePriority q out []).
  { apply StdQueueFacts.drain_pops;
      [apply monitoring_compare_asym | apply monitoring_compare_negtrans | lia]. }
  split; [exact H |].
  pose proof (StdQueueFacts.pops_perm _ _ _ _ H) as G.
  rewrite app_nil_r in G. rewrite G. unfold q.
  rewrite StdQueueFacts.push_all_perm. now rewrite app_nil_r.
Qed.

(** C1. Pushes followed by pops with nothing in between: the pops of
    [task_queue] and of [data_queue] come out in non-decreasing rank
    (priority ascending, critical before non-critical, cost ascending),
    whatever the queue held before and whichever greatest element the
    container hands out on a tie; popping all that was pushed into an empty
    queue returns it all, in that order.  Of two items of equal priority of which
    exactly one is critical, the critical one is at the top after either
    order of insertion. *)
Theorem pops_in_rank_order :
  (forall q0 pushed out q',
      StdQueue.pops Quantum.ComparePriority (StdQueue.push_all pushed q0) out q' ->
      quantum_rank_order out)
  /\ (forall q0 pushed out q',
      StdQueue.pops Monitoring.ComparePriority (StdQueue.push_all pushed q0) out q' ->
      monitoring_rank_order out)
  /\ (forall pushed,
      let q := StdQueue.push_all pushed [] in
      let out := StdQueue.drain Quantum.ComparePriority (length q) q in
      Permutation out pushed /\ quantum_rank_order out)
  /\ (forall pushed,
      let q := StdQueue.push_all pushed [] in
      let out := StdQueue.drain Monitoring.ComparePriority (length q) q in
      Permutation out pushed /\ monitoring_rank_order out)
  /\ (forall a b,
      Quantum.priority a = Quantum.priority b ->
      Quantum.is_critical a = true -> Quantum.is_critical b = false ->
      forall q,
        q = StdQueue.push b (StdQueue.push a []) \/
        q = StdQueue.push a (StdQueue.push b []) ->
        StdQueue.pop Quantum.ComparePriority q = Some (a, [b])
        /\ forall x, StdQueue.is_top Quantum.ComparePriority q x -> x = a)
  /\ (forall a b,
      Monitoring.priority a = Monitoring.priority b ->
      Monitoring.is_critical a = true -> Monitoring.is_critical b = false ->
      forall q,
        q = StdQueue.push b (StdQueue.push a []) \/
        q = StdQueue.push a (StdQueue.push b []) ->
        StdQueue.pop Monitoring.ComparePriority q = Some (a, [b])
        /\ forall x, StdQueue.is_top Monitoring.ComparePriority q x -> x = a).
Proof.
  split; [| split; [| split; [| split; [| split]]]].
  - intros q0 pushed out q'. apply quantum_pops_rank_order.
  - intros q0 pushed out q'. apply monitoring_pops_rank_order.
  - intros pushed q out.
    destruct (quantum_drain_all pushed) as [Hrun Hperm].
    split; [exact Hperm | exact (quantum_pops_rank_order _ _ _ Hrun)].
  - intros pushed q out.
    destruct (monitoring_drain_all pushed) as [Hrun Hperm].
    split; [exact Hperm | exact (monitoring_pops_rank_order _ _ _ Hrun)].
  - intros a b Hp Ha Hb q Hq.
    assert (Hba : Quantum.ComparePriority b a = true).
    { unfold Quantum.ComparePriority. now rewrite Hp, Ha, Hb, Z.eqb_refl. }
    assert (Hab : Quantum.ComparePriority a b = false)
      by now apply quantum_compare_asym.
    destruct Hq as [-> | ->]; simpl; rewrite ?Hab, ?Hba; (split; [reflexivity |]);
      intros x [[<- | [<- | []]] Hmax]; try reflexivity;
      rewrite Hmax in Hba by (simpl; auto); discriminate.
  - intros a b Hp Ha Hb q Hq.
    assert (Hba : Monitoring.ComparePriority b a = true).
    { unfold Monitoring.ComparePriority. now rewrite Hp, Ha, Hb, Z.eqb_refl. }
    assert (Hab : Monitoring.ComparePriority a b = false)
      by now apply monitoring_compare_asym.
    destruct Hq as [-> | ->]; simpl; rewrite ?Hab, ?Hba; (split; [reflexivity |]);
      intros x [[<- | [<- | []]] Hmax]; try reflexivity;
      rewrite Hmax in Hba by (simpl; auto); discriminate.
Qed.

(** Scenario A: the first two tasks of [main], pushed in the reverse of
    the order they are served in. *)
Lemma pops_in_rank_order_witness :
  quantum_rank_order
    [Quantum.mkQuantumTask 1 1 true 2000 8 false;
     Quantum.mkQuantumTask 2 3 false 3000 6 false].
Proof.
  apply (proj1 pops_in_rank_order []
           [Quantum.mkQuantumTask 2 3 false 3000 6 false;
            Quantum.mkQuantumTask 1 1 true 2000 8 false]
           _ []).
  simpl.
  apply StdQueue.pops_cons with [Quantum.mkQuantumTask 2 3 false 3000 6 false].
  { split; [split |].
    - simpl. auto.
    - intros y [<- | [<- | []]]; reflexivity.
    - apply perm_swap. }
  apply StdQueue.pops_cons with [].
  { split; [split |].
    - simpl. auto.
    - intros y [<- | []]; reflexivity.
    - reflexivity. }
  apply StdQueue.pops_nil.
Defined.

(** ** The quantum task scheduler *)

Module QuantumFacts.
Import StdQueue Quantum.

Ltac run := unfold bind, get, put, modify, emit, ret, block; simpl.

Section worker.
Variable rand_seq : nat -> Z.

Lemma quantum_state_eta s :
  mkState (task_queue s) (quantum_processors s) (failed_processor s) (rand_calls s) = s.
Proof. now destruct s. Qed.

(** *** [process_quantum_task] *)

Lemma process_on_failed task processor_id s :
  processor_id = failed_processor s ->
  process_quantum_task task processor_id s
  = Ret tt s [Print_failed (id task) processor_id].
Proof.
  intros ->. unfold process_quantum_task. run. now rewrite Z.eqb_refl.
Qed.

Lemma process_on_working task processor_id s :
  processor_id <> failed_processor s -> 0 < quantum_processors s ->
  process_quantum_task task processor_id s
  = Ret tt s [Acquire; Print_started processor_id task; Sleep_ms (duration task);
              Release; Print_completed processor_id (id task)].
Proof.
  intros Hne Hpos. unfold process_quantum_task, acquire, release. run.
  destruct (Z.eqb_spec processor_id (failed_processor s)) as [| _]; [contradiction |].
  destruct (Z.ltb_spec 0 (quantum_processors s)) as [_ |]; [| lia].
  simpl. unfold set_quantum_processors. simpl.
  replace (quantum_processors s - 1 + 1) with (quantum_processors s) by lia.
  now rewrite quantum_state_eta.
Qed.

Lemma process_blocked task processor_id s :
  processor_id <> failed_processor s -> quantum_processors s <= 0 ->
  process_quantum_task task processor_id s = Blocked s [Acquire].
Proof.
  intros Hne Hpos. unfold process_quantum_task, acquire. run.
  destruct (Z.eqb_spec processor_id (failed_processor s)) as [| _]; [contradiction |].
  destruct (Z.ltb_spec 0 (quantum_processors s)) as [| _]; [lia |]. reflexivity.
Qed.


Lemma process_returns task processor_id s :
  can_run processor_id s ->
  exists tr, process_quantum_task task processor_id s = Ret tt s tr.
Proof.
  intros Hrun.
  destruct (Z.eq_dec processor_id (failed_processor s)) as [E | N].
  - eexists. now apply process_on_failed.
  - destruct Hrun as [Hpos |]; [| contradiction].
    eexists. now apply process_on_working.
Qed.

(** *** One pass of the worker *)

Lemma iteration_on_empty processor_id s :
  task_queue s = [] ->
  worker_iteration rand_seq processor_id s = Ret Break s [].
Proof. intros E. unfold worker_iteration. run. now rewrite E. Qed.

Lemma pop_some_nonempty (q : list QuantumTask) task rest :
  pop ComparePriority q = Some (task, rest) -> empty q = false.
Proof. destruct q; [discriminate | reflexivity]. Qed.


Lemma iteration_splits processor_id s task rest :
  pop ComparePriority (task_queue s) = Some (task, rest) ->
  should_split task = true ->
  worker_iteration rand_seq processor_id s
  = Ret Continue (after_split rand_seq s task rest) [Print_splitting processor_id (id task)].
Proof.
  intros Hpop Hsplit. unfold worker_iteration. run.
  rewrite (pop_some_nonempty _ _ _ Hpop), Hpop. simpl. rewrite Hsplit.
  unfold rand, push_task. run. reflexivity.
Qed.

Lemma iteration_dispatches processor_id s task rest :
  pop ComparePriority (task_queue s) = Some (task, rest) ->
  should_split task = false ->
  worker_iteration rand_seq processor_id s
  = bind (process_quantum_task task processor_id) (fun _ => ret Continue)
      (set_task_queue s rest).
Proof.
  intros Hpop Hsplit. unfold worker_iteration. run.
  rewrite (pop_some_nonempty _ _ _ Hpop), Hpop. simpl. rewrite Hsplit.
  unfold bind, ret.
  destruct (process_quantum_task task processor_id (set_task_queue s rest));
    reflexivity.
Qed.

(** The failed processor never touches the semaphore, however long its
    worker runs. *)
Lemma failed_worker_takes_no_unit processor_id : forall fuel s,
  failed_processor s = processor_id ->
  let o := process_quantum_tasks rand_seq fuel processor_id s in
  existsb is_acquire (trace o) = false
  /\ quantum_processors (final o) = quantum_processors s
  /\ failed_processor (final o) = processor_id.
Proof.
  induction fuel as [| fuel IH]; intros s Hf; [simpl; auto |].
  unfold process_quantum_tasks in *. cbv zeta.
  destruct (pop ComparePriority (task_queue s)) as [[task rest] |] eqn:Hpop.
  - destruct (should_split task) eqn:Hsplit.
    + destruct (while_true_continue _ fuel _ _ _
                  (iteration_splits processor_id s task rest Hpop Hsplit))
        as (Ht & Hfin & _).
      rewrite Ht, Hfin. simpl.
      apply (IH (after_split rand_seq s task rest)). exact Hf.
    + assert (Hit : worker_iteration rand_seq processor_id s
                    = Ret Continue (set_task_queue s rest)
                        [Print_failed (id task) processor_id]).
      { rewrite (iteration_dispatches _ _ _ _ Hpop Hsplit).
        unfold bind. rewrite process_on_failed by (simpl; congruence).
        reflexivity. }
      destruct (while_true_continue _ fuel _ _ _ Hit) as (Ht & Hfin & _).
      rewrite Ht, Hfin. simpl.
      apply (IH (set_task_queue s rest)). exact Hf.
  - apply StdQueueFacts.pop_empty in Hpop.
    assert (Hq : task_queue s = [])
      by (destruct (task_queue s); [reflexivity | discriminate]).
    rewrite (while_true_break _ fuel _ _ _ (iteration_on_empty _ _ Hq)).
    simpl. auto.
Qed.

(** C2. Once [failed_processor] equals [U], a task dispatched to [U] is
    reported as failed and [process_quantum_task] returns with the state
    untouched and no call of [acquire()]; the whole worker loop of [U] makes
    no such call either and leaves the semaphore as it found it. *)
Theorem failed_unit_fails_fast
  (task : QuantumTask) (U : Z) (s : State) (Hfailed : failed_processor s = U) :
  process_quantum_task task U s = Ret tt s [Print_failed (id task) U]
  /\ existsb is_acquire (trace (process_quantum_task task U s)) = false
  /\ forall fuel,
       let o := process_quantum_tasks rand_seq fuel U s in
       existsb is_acquire (trace o) = false
       /\ quantum_processors (final o) = quantum_processors s.
Proof.
  assert (H : process_quantum_task task U s = Ret tt s [Print_failed (id task) U])
    by (apply process_on_failed; congruence).
  split; [exact H |]. split; [rewrite H; reflexivity |].
  intros fuel o.
  destruct (failed_worker_takes_no_unit U fuel s Hfailed) as (Ht & Hq & _).
  split; assumption.
Qed.

End worker.

(** Processor 2 has failed, as in [main]; task 3 is dispatched to it. *)
Lemma failed_unit_fails_fast_witness :
  process_quantum_task (mkQuantumTask 3 2 false 1500 4 false) 2
    (mkState [] 4 2 0)
  = Ret tt (mkState [] 4 2 0) [Print_failed 3 2].
Proof.
  apply (failed_unit_fails_fast (fun _ => 0)
           (mkQuantumTask 3 2 false 1500 4 false) 2 (mkState [] 4 2 0)).
  reflexivity.
Defined.

(** *** Splitting *)

Lemma should_split_spec task :
  should_split task = true <->
  split_threshold < required_qubits task /\ is_split task = false.
Proof.
  unfold should_split. rewrite andb_true_iff, Z.ltb_lt, negb_true_iff. tauto.
Qed.

Lemma split_task_fields task r :
  split_task task r
  = mkQuantumTask (wrap_int (id task * 100 + cmod r 100)) (priority task)
      (is_critical task) (cdiv (duration task) 2)
      (cdiv (required_qubits task) 2) true.
Proof. reflexivity. Qed.

Lemma child_not_split task r : should_split (split_task task r) = false.
Proof. unfold should_split. simpl. apply andb_false_r. Qed.

Lemma cdiv2_exact a : 0 <= a -> (cdiv a 2 + cdiv a 2 = a <-> cmod a 2 = 0).
Proof.
  intros H. unfold cdiv, cmod.
  pose proof (Z.quot_rem' a 2). lia.
Qed.

Lemma cdiv2_sum a : 0 <= a -> cdiv a 2 + cdiv a 2 <= a.
Proof. intros H. pose proof (cdiv2_bounds a H). lia. Qed.

(** C10. The child [split_task] returns has the priority and the critical
    flag of its parent; the function assigns the id, the duration, the
    number of qubits and the split flag, and copies the rest. *)
Theorem split_task_frame (task : QuantumTask) (rand_value : Z) :
  priority (split_task task rand_value) = priority task
  /\ is_critical (split_task task rand_value) = is_critical task
  /\ split_task task rand_value
     = set_is_split
         (set_required_qubits
            (set_duration
               (set_id task (wrap_int (id task * 100 + cmod rand_value 100)))
               (cdiv (duration task) 2))
            (cdiv (required_qubits task) 2))
         true.
Proof. repeat split. Qed.

Section splitting.
Variable rand_seq : nat -> Z.

(** C7. The worker splits a task exactly when its number of qubits exceeds
    the threshold (5) and it has not been split; a child of a split is
    marked as split, so that the worker dispatches it whatever its number
    of qubits; a task of 10 qubits yields two children of 5 qubits, both
    pushed back, and a task of 12 two children of 6, above the threshold
    and still never split. *)
Theorem split_only_once :
  (forall task,
      should_split task = true <->
      split_threshold < required_qubits task /\ is_split task = false)
  /\ (forall task r,
      is_split (split_task task r) = true
      /\ should_split (split_task task r) = false)
  /\ (forall processor_id s child rest,
      pop ComparePriority (task_queue s) = Some (child, rest) ->
      is_split child = true ->
      worker_iteration rand_seq processor_id s
      = bind (process_quantum_task child processor_id) (fun _ => ret Continue)
          (set_task_queue s rest))
  /\ (forall processor_id s task rest,
      pop ComparePriority (task_queue s) = Some (task, rest) ->
      required_qubits task = 10 -> is_split task = false ->
      exists sub_task1 sub_task2 s',
        worker_iteration rand_seq processor_id s
        = Ret Continue s' [Print_splitting processor_id (id task)]
        /\ task_queue s' = push sub_task2 (push sub_task1 rest)
        /\ required_qubits sub_task1 = 5 /\ required_qubits sub_task2 = 5
        /\ is_split sub_task1 = true /\ is_split sub_task2 = true
        /\ should_split sub_task1 = false /\ should_split sub_task2 = false)
  /\ (forall task r,
      required_qubits task = 12 ->
      split_threshold < required_qubits (split_task task r)
      /\ should_split (split_task task r) = false).
Proof.
  split; [exact should_split_spec |].
  split; [intros task r; split; [reflexivity | apply child_not_split] |].
  split; [| split].
  - intros processor_id s child rest Hpop Hchild.
    apply iteration_dispatches; [exact Hpop |].
    unfold should_split. rewrite Hchild. apply andb_false_r.
  - intros processor_id s task rest Hpop Hq Hs.
    exists (split_task task (rand_seq (rand_calls s))),
           (split_task task (rand_seq (Datatypes.S (rand_calls s)))),
           (after_split rand_seq s task rest).
    split.
    { apply iteration_splits; [exact Hpop |].
      apply should_split_spec. unfold split_threshold. rewrite Hq. auto with zarith. }
    simpl. rewrite Hq. repeat split; apply child_not_split.
  - intros task r Hq. split; [| apply child_not_split].
    simpl. rewrite Hq. reflexivity.
Qed.

(** C3, as the worker has it.  A task to split (more than 5 qubits, not
    split before) is split in every case and not executed itself: the
    worker pushes its two children and goes on.  Each child has at least 3
    qubits; its duration is half the parent's, truncated, which is positive
    exactly when the parent's is 2 or more. *)
Theorem split_is_unconditional processor_id s task rest
  (Hpop : pop ComparePriority (task_queue s) = Some (task, rest))
  (Hsplit : should_split task = true) :
  worker_iteration rand_seq processor_id s
  = Ret Continue (after_split rand_seq s task rest)
      [Print_splitting processor_id (id task)]
  /\ forall r,
       let child := split_task task r in
       3 <= required_qubits child
       /\ duration child = cdiv (duration task) 2
       /\ (0 < duration child <-> 2 <= duration task).
Proof.
  split; [now apply iteration_splits |].
  intros r child. apply should_split_spec in Hsplit. destruct Hsplit as [Hq _].
  unfold split_threshold in Hq. subst child. simpl. unfold cdiv.
  pose proof (Z.quot_rem' (required_qubits task) 2).
  pose proof (Z.quot_rem' (duration task) 2).
  assert (0 <= Z.rem (required_qubits task) 2 < 2) by (apply Z.rem_bound_pos; lia).
  split; [lia |]. split; [reflexivity |].
  destruct (Z.le_gt_cases 0 (duration task)) as [Hd | Hd].
  - assert (0 <= Z.rem (duration task) 2 < 2) by (apply Z.rem_bound_pos; lia). lia.
  - assert (Z.quot (duration task) 2 <= 0) by (apply Z.quot_le_upper_bound; lia).
    lia.
Qed.

(** C4. A split pushes exactly two children; each has the duration and the
    number of qubits of the parent divided by 2 with truncation, whatever
    [rand()] returned; the two durations and the two numbers of qubits sum
    to at most the parent's, and to the parent's exactly when it is even.
    The duration is taken non-negative, as the cost of a work item is; a
    task to split has more than 5 qubits. *)
Theorem split_halves processor_id s task rest
  (Hpop : pop ComparePriority (task_queue s) = Some (task, rest))
  (Hsplit : should_split task = true)
  (Hcost : 0 <= duration task) :
  exists sub_task1 sub_task2 s',
    worker_iteration rand_seq processor_id s
    = Ret Continue s' [Print_splitting processor_id (id task)]
    /\ task_queue s' = push sub_task2 (push sub_task1 rest)
    /\ size (task_queue s') = (size rest + 2)%nat
    /\ duration sub_task1 = cdiv (duration task) 2
    /\ duration sub_task2 = cdiv (duration task) 2
    /\ required_qubits sub_task1 = cdiv (required_qubits task) 2
    /\ required_qubits sub_task2 = cdiv (required_qubits task) 2
    /\ duration sub_task1 + duration sub_task2 <= duration task
    /\ required_qubits sub_task1 + required_qubits sub_task2 <= required_qubits task
    /\ (duration sub_task1 + duration sub_task2 = duration task
        <-> cmod (duration task) 2 = 0)
    /\ (required_qubits sub_task1 + required_qubits sub_task2 = required_qubits task
        <-> cmod (required_qubits task) 2 = 0).
Proof.
  exists (split_task task (rand_seq (rand_calls s))),
         (split_task task (rand_seq (Datatypes.S (rand_calls s)))),
         (after_split rand_seq s task rest).
  assert (Hq : 0 <= required_qubits task).
  { apply should_split_spec in Hsplit. unfold split_threshold in Hsplit. lia. }
  split; [now apply iteration_splits |].
  split; [reflexivity |].
  split; [simpl; rewrite !StdQueueFacts.push_size; unfold size; lia |].
  simpl. repeat split;
    try (apply cdiv2_sum; assumption); apply cdiv2_exact; assumption.
Qed.

End splitting.

(** Scenario C on task 4 of [main], which asks for 10 qubits. *)
Lemma split_only_once_witness :
  exists sub_task1 sub_task2 s',
    worker_iteration (fun _ => 7) 0
      (mkState [mkQuantumTask 4 1 false 2500 10 false] 4 (-1) 0)
    = Ret Continue s' [Print_splitting 0 4]
    /\ task_queue s' = [sub_task1; sub_task2]
    /\ required_qubits sub_task1 = 5 /\ required_qubits sub_task2 = 5
    /\ should_split sub_task1 = false /\ should_split sub_task2 = false.
Proof.
  destruct (proj1 (proj2 (proj2 (proj2 (split_only_once (fun _ => 7))))) 0
              (mkState [mkQuantumTask 4 1 false 2500 10 false] 4 (-1) 0)
              (mkQuantumTask 4 1 false 2500 10 false) [])
    as (c1 & c2 & s' & Hrun & Hq & Hw1 & Hw2 & _ & _ & Hs1 & Hs2).
  - reflexivity.
  - reflexivity.
  - reflexivity.
  - exists c1, c2, s'. repeat split; assumption.
Defined.

(** Task 4 of [main], alone in the queue. *)
Lemma split_halves_witness :
  exists sub_task1 sub_task2 s',
    worker_iteration (fun _ => 7) 0
      (mkState [mkQuantumTask 4 1 false 2500 10 false] 4 (-1) 0)
    = Ret Continue s' [Print_splitting 0 4]
    /\ task_queue s' = [sub_task1; sub_task2]
    /\ duration sub_task1 + duration sub_task2 <= 2500.
Proof.
  destruct (split_halves (fun _ => 7) 0
              (mkState [mkQuantumTask 4 1 false 2500 10 false] 4 (-1) 0)
              (mkQuantumTask 4 1 false 2500 10 false) [])
    as (c1 & c2 & s' & Hrun & Hq & _ & _ & _ & _ & _ & Hsum & _).
  - reflexivity.
  - reflexivity.
  - simpl. lia.
  - exists c1, c2, s'. repeat split; assumption.
Defined.

Lemma split_is_unconditional_witness :
  worker_iteration (fun _ => 7) 0
    (mkState [mkQuantumTask 4 1 false 2500 10 false] 4 (-1) 0)
  = Ret Continue
      (after_split (fun _ => 7)
         (mkState [mkQuantumTask 4 1 false 2500 10 false] 4 (-1) 0)
         (mkQuantumTask 4 1 false 2500 10 false) [])
      [Print_splitting 0 4].
Proof.
  apply (split_is_unconditional (fun _ => 7) 0
           (mkState [mkQuantumTask 4 1 false 2500 10 false] 4 (-1) 0)
           (mkQuantumTask 4 1 false 2500 10 false) []).
  - reflexivity.
  - reflexivity.
Defined.

(** A task of duration 1 and 6 qubits: each half would have duration 0, and
    the worker splits it all the same instead of executing it. *)
Lemma degenerate_split_not_rejected :
  cdiv (duration (mkQuantumTask 1 1 false 1 6 false)) 2 <= 0
  /\ worker_iteration (fun _ => 0) 0
       (mkState [mkQuantumTask 1 1 false 1 6 false] 4 (-1) 0)
     = Ret Continue
         (mkState [mkQuantumTask 100 1 false 0 3 true;
                   mkQuantumTask 100 1 false 0 3 true] 4 (-1) 2)
         [Print_splitting 0 1]
  /\ worker_iteration (fun _ => 0) 0
       (mkState [mkQuantumTask 1 1 false 1 6 false] 4 (-1) 0)
     <> bind (process_quantum_task (mkQuantumTask 1 1 false 1 6 false) 0)
          (fun _ => ret Continue)
          (mkState [] 4 (-1) 0).
Proof.
  split; [vm_compute; discriminate |].
  split; [reflexivity |].
  vm_compute. discriminate.
Qed.

(** With a negative duration the truncation goes the other way: the two
    halves of -3 sum to -2. *)
Lemma split_negative_duration :
  duration (split_task (mkQuantumTask 1 1 false (-3) 6 false) 0)
  + duration (split_task (mkQuantumTask 1 1 false (-3) 6 false) 0) = -2.
Proof. reflexivity. Qed.

(** *** The worker loop ends *)

Lemma list_sum_perm l l' : Permutation l l' -> list_sum l = list_sum l'.
Proof. induction 1; simpl; lia. Qed.

Lemma pending_passes_perm q q' :
  Permutation q q' -> pending_passes q = pending_passes q'.
Proof.
  intros H. unfold pending_passes. apply list_sum_perm. now apply Permutation_map.
Qed.

Lemma pending_passes_pop q task rest :
  pop ComparePriority q = Some (task, rest) ->
  pending_passes q = (task_passes task + pending_passes rest)%nat.
Proof.
  intros H. apply StdQueueFacts.pop_perm in H.
  now rewrite (pending_passes_perm _ _ H).
Qed.

Lemma pending_passes_push task q :
  pending_passes (push task q) = (task_passes task + pending_passes q)%nat.
Proof. now rewrite (pending_passes_perm _ _ (StdQueueFacts.push_perm task q)). Qed.

Section termination.
Variable rand_seq : nat -> Z.
Variable processor_id : Z.

Lemma worker_loop_returns : forall fuel s,
  (pending_passes (task_queue s) < fuel)%nat ->
  can_run processor_id s ->
  exists s' tr,
    process_quantum_tasks rand_seq fuel processor_id s = Ret tt s' tr
    /\ task_queue s' = []
    /\ quantum_processors s' = quantum_processors s
    /\ failed_processor s' = failed_processor s.
Proof.
  induction fuel as [| fuel IH]; intros s Hfuel Hrun; [lia |].
  unfold process_quantum_tasks in *.
  destruct (pop ComparePriority (task_queue s)) as [[task rest] |] eqn:Hpop.
  - pose proof (pending_passes_pop _ _ _ Hpop) as Hwork.
    destruct (should_split task) eqn:Hsplit.
    + pose proof (iteration_splits rand_seq processor_id s task rest Hpop Hsplit)
        as Hit.
      destruct (IH (after_split rand_seq s task rest)) as (s' & tr & Hw & Hq & Hs & Hf).
      { simpl. rewrite !pending_passes_push. unfold task_passes in *.
        rewrite !child_not_split. rewrite Hsplit in Hwork. lia. }
      { exact Hrun. }
      exists s', (Print_splitting processor_id (id task) :: tr).
      split; [| auto].
      exact (while_true_continue_ret _ fuel _ _ _ _ _ Hit Hw).
    + destruct (process_returns task processor_id (set_task_queue s rest) Hrun)
        as (tr1 & Hproc).
      assert (Hit : worker_iteration rand_seq processor_id s
                    = Ret Continue (set_task_queue s rest) (tr1 ++ [])).
      { rewrite (iteration_dispatches _ _ _ _ _ Hpop Hsplit).
        unfold bind. now rewrite Hproc. }
      destruct (IH (set_task_queue s rest)) as (s' & tr & Hw & Hq & Hs & Hf).
      { simpl. unfold task_passes in Hwork. rewrite Hsplit in Hwork. lia. }
      { exact Hrun. }
      exists s', ((tr1 ++ []) ++ tr). split; [| auto].
      exact (while_true_continue_ret _ fuel _ _ _ _ _ Hit Hw).
  - apply StdQueueFacts.pop_empty in Hpop.
    assert (Hq : task_queue s = [])
      by (destruct (task_queue s); [reflexivity | discriminate]).
    exists s, []. split; [| auto].
    apply while_true_break. now apply iteration_on_empty.
Qed.

End termination.

End QuantumFacts.

(** ** The monitoring server *)

Module MonitoringFacts.
Import StdQueue Monitoring.

Ltac run := unfold bind, get, put, modify, emit, ret, block; simpl.

Ltac branch :=
  match goal with
  | |- context [Z.ltb ?a ?b] => destruct (Z.ltb_spec a b); simpl
  | |- context [if ?b then _ else _] => destruct b eqn:?; simpl
  end.

(** *** The station *)

Lemma push_changes_queue (data : MonitoringData) q : push data q <> q.
Proof.
  intros H. apply (f_equal (@length _)) in H.
  unfold push in H. rewrite length_app in H. simpl in H. lia.
Qed.

(** C5. A station drops the record it generated, leaving the queue and
    the rest of the state as they are, exactly when the load is above the
    overload threshold (80), the record is not critical and its priority
    is above the cutoff 3, or the emergency mode is on, the record is not
    critical and its priority is above the stricter cutoff 2; in every
    other case it pushes the record. *)
Theorem admission_rule
  (station priority_draw : Z) (critical_draw : bool) (size_draw pause_draw : Z)
  (s : State) :
  let data := generate station priority_draw critical_draw size_draw in
  let o := monitoring_station_iteration station priority_draw critical_draw
             size_draw pause_draw s in
  let overloaded :=
    overload_threshold < current_load s /\ is_critical data = false
    /\ overload_cutoff < priority data in
  let emergency :=
    emergency_mode s = true /\ is_critical data = false
    /\ emergency_cutoff < priority data in
  emergency_cutoff < overload_cutoff
  /\ returns o = true
  /\ (overloaded \/ emergency <-> final o = s)
  /\ (~ (overloaded \/ emergency)
      <-> final o = set_data_queue s (push data (data_queue s)))
  /\ (overloaded \/ emergency
      <-> ~ In (Print_sent data) (trace o)).
Proof.
  cbv zeta. unfold monitoring_station_iteration.
  set (data := generate station priority_draw critical_draw size_draw).
  assert (Hne : forall q, set_data_queue s q = s -> q = data_queue s).
  { intros q H. apply (f_equal data_queue) in H. exact H. }
  assert (Hpush : set_data_queue s (push data (data_queue s)) <> s).
  { intros H. apply Hne in H. revert H. apply push_changes_queue. }
  clearbody data. unfold overload_threshold, overload_cutoff, emergency_cutoff.
  split; [lia |]. run.
  destruct (Z.ltb_spec 80 (current_load s)), (is_critical data),
    (Z.ltb_spec 3 (priority data)), (emergency_mode s),
    (Z.ltb_spec 2 (priority data)); simpl;
    (split; [reflexivity |]);
    repeat split; intros;
    try (exfalso; intuition (discriminate || congruence || lia));
    try (intuition (discriminate || congruence || lia)).
Qed.

(** Three records against an overloaded server that is also in emergency
    mode: priority 4 is shed, priority 3 too, and a critical one is sent. *)
Example admission_examples :
  final (monitoring_station_iteration 1 4 false 100 0
           (mkState [] 0 100 false 5 0))
  = mkState [] 0 100 false 5 0
  /\ final (monitoring_station_iteration 1 3 false 100 0
              (mkState [] 0 100 true 5 4))
     = mkState [] 0 100 true 5 4
  /\ data_queue (final (monitoring_station_iteration 1 5 true 100 0
                          (mkState [] 0 100 true 5 4)))
     = [generate 1 5 true 100].
Proof. repeat split. Qed.

(** *** The load monitor *)

Lemma adapt_capacity_frame load s :
  let o := adapt_capacity load s in
  emergency_mode (final o) = emergency_mode s
  /\ emergency_counter (final o) = emergency_counter s
  /\ data_queue (final o) = data_queue s
  /\ current_load (final o) = current_load s.
Proof.
  cbv zeta. unfold adapt_capacity, acquire, release. run.
  repeat branch; auto.
Qed.

(** What [adapt_capacity] does to the number of handlers. *)
Lemma adapt_capacity_handlers load s :
  min_handlers <= active_handlers s <= max_handlers ->
  let a := active_handlers s in
  let a' := active_handlers (final (adapt_capacity load s)) in
  (grow_threshold < load /\ a < max_handlers -> a' = a + 1)
  /\ (~ (grow_threshold < load /\ a < max_handlers) ->
      load < shrink_threshold /\ min_handlers < a -> a' = a - 1)
  /\ (~ (grow_threshold < load /\ a < max_handlers) ->
      ~ (load < shrink_threshold /\ min_handlers < a) -> a' = a).
Proof.
  unfold min_handlers, max_handlers, grow_threshold, shrink_threshold.
  intros Hinv. cbv zeta.
  assert (Hup : wrap_int (active_handlers s + 1) = active_handlers s + 1)
    by (apply wrap_int_id; unfold in_int, int_min, int_max; lia).
  assert (Hdown : wrap_int (active_handlers s - 1) = active_handlers s - 1)
    by (apply wrap_int_id; unfold in_int, int_min, int_max; lia).
  unfold adapt_capacity, acquire, release,
    min_handlers, max_handlers, grow_threshold, shrink_threshold.
  run. repeat branch; rewrite ?Hup, ?Hdown; repeat split; intros; try lia; tauto.
Qed.

Lemma check_emergency_returns load s :
  exists tr,
    check_emergency load s
    = Ret tt
        (if emergency_threshold <? load then
           set_emergency_mode
             (set_emergency_counter s (wrap_int (emergency_counter s + 1)))
             (emergency_mode s
              || (emergency_samples <? wrap_int (emergency_counter s + 1)))
         else set_emergency_mode (set_emergency_counter s 0) false)
        tr.
Proof.
  unfold check_emergency. run.
  destruct (Z.ltb_spec emergency_threshold load); simpl.
  - destruct (Z.ltb_spec emergency_samples (wrap_int (emergency_counter s + 1)));
      destruct (emergency_mode s) eqn:Hm; simpl; eexists;
      unfold set_emergency_mode, set_emergency_counter; simpl;
      rewrite ?Hm; reflexivity.
  - destruct (emergency_mode s) eqn:Hm; simpl; eexists;
      unfold set_emergency_mode, set_emergency_counter; simpl;
      rewrite ?Hm; reflexivity.
Qed.

Lemma check_emergency_handlers load s :
  active_handlers (final (check_emergency load s)) = active_handlers s
  /\ server_capacity (final (check_emergency load s)) = server_capacity s.
Proof.
  destruct (check_emergency_returns load s) as [tr ->]. simpl.
  destruct (emergency_threshold <? load); auto.
Qed.

Lemma load_monitor_step_cases load s :
  match adapt_capacity load (set_current_load s load) with
  | Ret _ s1 _ =>
      exists tr,
        load_monitor_step load s = Ret Continue (final (check_emergency load s1)) tr
  | Blocked s1 tr1 => load_monitor_step load s = Blocked s1 tr1
  | Running s1 tr1 => load_monitor_step load s = Running s1 tr1
  end.
Proof.
  destruct (adapt_capacity load (set_current_load s load))
    as [[] s1 tr1 | s1 tr1 | s1 tr1] eqn:E;
    unfold load_monitor_step; cbv beta iota delta [bind modify]; rewrite E;
    try reflexivity.
  destruct (check_emergency_returns load s1) as [tr2 E2].
  rewrite E2. simpl. eexists. reflexivity.
Qed.

Lemma load_monitor_step_handlers load s :
  active_handlers (final (load_monitor_step load s))
  = active_handlers (final (adapt_capacity load (set_current_load s load))).
Proof.
  pose proof (load_monitor_step_cases load s) as H.
  destruct (adapt_capacity load (set_current_load s load)) as [[] s1 tr1 | |].
  - destruct H as [tr ->]. simpl. apply check_emergency_handlers.
  - now rewrite H.
  - now rewrite H.
Qed.

Lemma load_monitor_step_emergency load s c s' tr :
  load_monitor_step load s = Ret c s' tr ->
  emergency_counter s'
  = (if emergency_threshold <? load
     then wrap_int (emergency_counter s + 1) else 0)
  /\ emergency_mode s'
     = (if emergency_threshold <? load
        then emergency_mode s
             || (emergency_samples <? wrap_int (emergency_counter s + 1))
        else false).
Proof.
  intros Hstep. pose proof (load_monitor_step_cases load s) as H.
  pose proof (adapt_capacity_frame load (set_current_load s load)) as F.
  cbv zeta in F.
  destruct (adapt_capacity load (set_current_load s load)) as [[] s1 tr1 | |];
    [| congruence | congruence].
  destruct H as [tr' H]. rewrite H in Hstep. injection Hstep as _ <- _.
  simpl in F. destruct F as (Fm & Fc & _).
  destruct (check_emergency_returns load s1) as [tr2 ->]. simpl.
  destruct (emergency_threshold <? load); simpl; rewrite ?Fm, ?Fc; auto.
Qed.

Lemma load_monitor_step_bounds (load : Z) (s : State)
  (Hinv : min_handlers <= active_handlers s <= max_handlers) :
  let C := active_handlers s in
  let C' := active_handlers (final (load_monitor_step load s)) in
  min_handlers <= C' <= max_handlers
  /\ (C' = C + 1 <-> grow_threshold < load /\ C < max_handlers)
  /\ (C' = C - 1 <-> load < shrink_threshold /\ min_handlers < C)
  /\ (C' = C \/ C' = C + 1 \/ C' = C - 1).
Proof.
  cbv zeta. rewrite load_monitor_step_handlers.
  pose proof (adapt_capacity_handlers load (set_current_load s load) Hinv) as H.
  cbv zeta in H.
  change (active_handlers (set_current_load s load)) with (active_handlers s) in H.
  revert Hinv H.
  generalize (active_handlers
                (final (adapt_capacity load (set_current_load s load)))).
  unfold min_handlers, max_handlers, grow_threshold, shrink_threshold.
  intros C' Hinv H. lia.
Qed.

(** *** Sampling *)

Lemma monitoring_state_eta s :
  mkState (data_queue s) (server_capacity s) (current_load s) (emergency_mode s)
    (active_handlers s) (emergency_counter s) = s.
Proof. now destruct s. Qed.

Lemma try_acquire_returns s :
  try_acquire s
  = Ret (0 <? server_capacity s)
      (if 0 <? server_capacity s
       then set_server_capacity s (server_capacity s - 1) else s)
      [Try_acquire (0 <? server_capacity s)].
Proof.
  unfold try_acquire. run. now destruct (0 <? server_capacity s).
Qed.

(** A probe gives back the unit it takes. *)
Lemma probe_returns : forall n s, exists tr, probe n s = Ret tt s tr.
Proof.
  induction n as [| n IH]; intros s; simpl; [eexists; reflexivity |].
  unfold try_acquire, release. run.
  destruct (Z.ltb_spec 0 (server_capacity s)); simpl.
  - unfold set_server_capacity. simpl.
    replace (server_capacity s - 1 + 1) with (server_capacity s) by lia.
    rewrite monitoring_state_eta. eexists. reflexivity.
  - destruct (IH s) as [tr ->]. eexists. reflexivity.
Qed.

(** The first [try_acquire()] of a pass is not given back: the sample is
    80 and one unit less is left when a unit was free, and 100 when none
    was. *)
Lemma sample_load_returns s :
  exists tr,
    sample_load s
    = Ret (if 0 <? server_capacity s then 80 else 100)
        (if 0 <? server_capacity s
         then set_server_capacity s (server_capacity s - 1) else s)
        tr.
Proof.
  unfold sample_load. cbv beta iota delta [bind].
  rewrite try_acquire_returns.
  destruct (probe_returns 4
              (if 0 <? server_capacity s
               then set_server_capacity s (server_capacity s - 1) else s))
    as [tr ->].
  unfold ret. destruct (0 <? server_capacity s); eexists; reflexivity.
Qed.

Lemma load_monitor_iteration_final s :
  exists load s1,
    (load = 80 \/ load = 100)
    /\ active_handlers s1 = active_handlers s
    /\ emergency_mode s1 = emergency_mode s
    /\ emergency_counter s1 = emergency_counter s
    /\ final (load_monitor_iteration s) = final (load_monitor_step load s1)
    /\ returns (load_monitor_iteration s) = returns (load_monitor_step load s1).
Proof.
  destruct (sample_load_returns s) as [tr E].
  destruct (bind_ret sample_load load_monitor_step s _ _ _ E) as (_ & Hf & Hr).
  unfold load_monitor_iteration.
  eexists. eexists. split; [| split; [| split; [| split; [| split]]]];
    [| | | | exact Hf | exact Hr];
    destruct (0 <? server_capacity s); auto.
Qed.

Lemma load_monitor_bounds : forall fuel s,
  min_handlers <= active_handlers s <= max_handlers ->
  min_handlers <= active_handlers (final (load_monitor fuel s)) <= max_handlers.
Proof.
  intros fuel s. unfold load_monitor.
  apply (while_true_invariant load_monitor_iteration
           (fun s => min_handlers <= active_handlers s <= max_handlers)).
  clear. intros s Hinv.
  destruct (load_monitor_iteration_final s) as (load & s1 & _ & Ha & _ & _ & -> & _).
  rewrite <- Ha in Hinv.
  apply (load_monitor_step_bounds load s1 Hinv).
Qed.

(** C8. A step of the load monitor keeps the number of handlers between
    5 and 10: it adds one handler exactly when the load is above 80 and
    there are fewer than 10, removes one exactly when the load is below 50
    and there are more than 5, and leaves the number alone otherwise; the
    bounds hold after any number of passes of the loop of [load_monitor]
    as well, with the loads it samples. *)
Theorem capacity_bounds (load : Z) (s : State)
  (Hinv : min_handlers <= active_handlers s <= max_handlers) :
  let C := active_handlers s in
  let C' := active_handlers (final (load_monitor_step load s)) in
  min_handlers <= C' <= max_handlers
  /\ (C' = C + 1 <-> grow_threshold < load /\ C < max_handlers)
  /\ (C' = C - 1 <-> load < shrink_threshold /\ min_handlers < C)
  /\ (C' = C \/ C' = C + 1 \/ C' = C - 1)
  /\ forall fuel,
       min_handlers <= active_handlers (final (load_monitor fuel s)) <= max_handlers.
Proof.
  cbv zeta.
  destruct (load_monitor_step_bounds load s Hinv) as (H1 & H2 & H3 & H4).
  repeat split; try tauto; try (apply H1);
    try (intros fuel; now apply load_monitor_bounds);
    try (now apply load_monitor_bounds).
Qed.

(** The state at program start, under a load of 100, then of 40. *)
Lemma capacity_bounds_witness :
  active_handlers (final (load_monitor_step 100 initial_state)) = 6
  /\ active_handlers
       (final (load_monitor_step 40 (final (load_monitor_step 100 initial_state))))
     = 5.
Proof.
  split.
  - destruct (capacity_bounds 100 initial_state) as (_ & H & _).
    + simpl. unfold min_handlers, max_handlers. lia.
    + apply H. unfold grow_threshold, max_handlers. simpl. lia.
  - destruct (capacity_bounds 40 (final (load_monitor_step 100 initial_state)))
      as (_ & _ & H & _).
    + vm_compute. split; discriminate.
    + replace 5 with (active_handlers (final (load_monitor_step 100 initial_state)) - 1)
        by reflexivity.
      apply H. vm_compute. split; reflexivity.
Defined.
(** *** The emergency mode *)

Lemma streak_from_cons n load loads :
  streak_from n (load :: loads)
  = streak_from (if emergency_threshold <? load then Datatypes.S n else O) loads.
Proof. reflexivity. Qed.

Lemma monitor_samples_streak : forall loads n s s' tr,
  emergency_mode s = (4 <=? n)%nat ->
  ((n <= 3)%nat -> emergency_counter s = Z.of_nat n) ->
  monitor_samples loads s = Ret tt s' tr ->
  emergency_mode s' = (4 <=? streak_from n loads)%nat
  /\ ((streak_from n loads <= 3)%nat ->
      emergency_counter s' = Z.of_nat (streak_from n loads)).
Proof.
  induction loads as [| load loads IH]; intros n s s' tr Hmode Hcount Hrun.
  - injection Hrun as <- _. auto.
  - simpl in Hrun. apply bind_ret_inv in Hrun.
    destruct Hrun as (c & s1 & tr1 & tr2 & Hstep & Hrest & _).
    apply load_monitor_step_emergency in Hstep. destruct Hstep as (Hc1 & Hm1).
    rewrite streak_from_cons. apply (IH _ s1 s' tr2); [| | exact Hrest].
    + rewrite Hm1. unfold emergency_samples.
      destruct (emergency_threshold <? load); [| reflexivity].
      rewrite Hmode. destruct (Nat.leb_spec 4 n) as [Hn | Hn].
      * replace (4 <=? Datatypes.S n)%nat with true
          by (symmetry; apply Nat.leb_le; lia).
        reflexivity.
      * rewrite Hcount by lia.
        rewrite wrap_int_id by (unfold in_int, int_min, int_max; lia).
        rewrite orb_false_l.
        destruct (Z.ltb_spec 3 (Z.of_nat n + 1));
          destruct (Nat.leb_spec 4 (Datatypes.S n)); try reflexivity; lia.
    + rewrite Hc1. destruct (emergency_threshold <? load); [| reflexivity].
      intros Hn. rewrite Hcount by lia.
      rewrite wrap_int_id by (unfold in_int, int_min, int_max; lia). lia.
Qed.

(** The monitor alone, holding [monitor_inv], is never made to wait. *)
Lemma adapt_capacity_returns load s :
  monitor_inv s ->
  exists s1 tr, adapt_capacity load s = Ret tt s1 tr /\ monitor_inv s1.
Proof.
  unfold monitor_inv, min_handlers, max_handlers. intros [Hb Hc].
  assert (Hup : wrap_int (active_handlers s + 1) = active_handlers s + 1)
    by (apply wrap_int_id; unfold in_int, int_min, int_max; lia).
  assert (Hdown : wrap_int (active_handlers s - 1) = active_handlers s - 1)
    by (apply wrap_int_id; unfold in_int, int_min, int_max; lia).
  unfold adapt_capacity, acquire, release,
    min_handlers, max_handlers, grow_threshold, shrink_threshold. run.
  destruct (Z.ltb_spec 80 load); simpl;
    [destruct (Z.ltb_spec (active_handlers s) 10); simpl |].
  - eexists. eexists. split; [reflexivity |]. simpl. rewrite Hup. lia.
  - destruct (Z.ltb_spec load 50); simpl; [lia |].
    eexists. eexists. split; [reflexivity |]. lia.
  - destruct (Z.ltb_spec load 50); simpl;
      [destruct (Z.ltb_spec 5 (active_handlers s)); simpl |].
    + destruct (Z.ltb_spec 0 (server_capacity s)); simpl; [| lia].
      eexists. eexists. split; [reflexivity |]. simpl. rewrite Hdown. lia.
    + eexists. eexists. split; [reflexivity |]. lia.
    + eexists. eexists. split; [reflexivity |]. lia.
Qed.

Lemma load_monitor_step_returns load s :
  monitor_inv s ->
  exists s' tr, load_monitor_step load s = Ret Continue s' tr /\ monitor_inv s'.
Proof.
  intros Hinv. pose proof (load_monitor_step_cases load s) as H.
  destruct (adapt_capacity_returns load (set_current_load s load) Hinv)
    as (s1 & tr1 & E & Hinv1).
  rewrite E in H. destruct H as [tr H].
  eexists. eexists. split; [exact H |].
  destruct (check_emergency_handlers load s1) as [Ha Hc].
  unfold monitor_inv in *. rewrite Ha, Hc. exact Hinv1.
Qed.

Lemma monitor_samples_returns : forall loads s,
  monitor_inv s ->
  exists s' tr, monitor_samples loads s = Ret tt s' tr /\ monitor_inv s'.
Proof.
  induction loads as [| load loads IH]; intros s Hinv.
  - exists s, []. split; [reflexivity | exact Hinv].
  - destruct (load_monitor_step_returns load s Hinv) as (s1 & tr1 & E1 & Hinv1).
    destruct (IH s1 Hinv1) as (s' & tr2 & E2 & Hinv').
    exists s', (tr1 ++ tr2). split; [| exact Hinv'].
    simpl. exact (bind_ret_ret _ (fun _ => monitor_samples loads) _ _ _ _ _ _ _ E1 E2).
Qed.

Lemma step_below_clears load s c s' tr :
  load <= emergency_threshold ->
  load_monitor_step load s = Ret c s' tr ->
  emergency_counter s' = 0 /\ emergency_mode s' = false.
Proof.
  intros Hload Hstep. apply load_monitor_step_emergency in Hstep.
  destruct (Z.ltb_spec emergency_threshold load); [lia | exact Hstep].
Qed.

Lemma step_turns_on load s c s' tr :
  emergency_mode s = false -> in_int (emergency_counter s) ->
  load_monitor_step load s = Ret c s' tr ->
  emergency_mode s' = true ->
  emergency_threshold < load /\ emergency_samples <= emergency_counter s.
Proof.
  intros Hoff Hint Hstep Hon. apply load_monitor_step_emergency in Hstep.
  destruct Hstep as [_ Hm]. rewrite Hon, Hoff in Hm.
  destruct (Z.ltb_spec emergency_threshold load); [| discriminate].
  split; [assumption |]. simpl in Hm. symmetry in Hm. apply Z.ltb_lt in Hm.
  unfold emergency_samples, in_int, int_min, int_max, wrap_int in *.
  destruct (Z.eq_dec (emergency_counter s) (2 ^ 31 - 1)) as [E | N].
  - rewrite E in Hm. vm_compute in Hm. discriminate.
  - rewrite Z.mod_small in Hm by lia. lia.
Qed.

(** A pass of the loop with the load it samples itself: the sample is 80
    or 100, never below the shrink threshold, so that the monitor is never
    made to wait, and the pass reads as a sample at or below the emergency
    threshold exactly when a unit of the semaphore was free. *)
Lemma adapt_capacity_no_wait load s :
  shrink_threshold <= load ->
  exists s1 tr, adapt_capacity load s = Ret tt s1 tr.
Proof.
  unfold shrink_threshold. intros Hload.
  unfold adapt_capacity, acquire, release, shrink_threshold. run.
  destruct ((grow_threshold <? load) && (active_handlers s <? max_handlers)); simpl.
  - eexists. eexists. reflexivity.
  - destruct (Z.ltb_spec load 50); [lia |]. simpl. eexists. eexists. reflexivity.
Qed.

Lemma load_monitor_iteration_returns s :
  exists s' tr,
    load_monitor_iteration s = Ret Continue s' tr
    /\ (0 < server_capacity s ->
        emergency_counter s' = 0 /\ emergency_mode s' = false)
    /\ (server_capacity s <= 0 ->
        emergency_counter s' = wrap_int (emergency_counter s + 1)
        /\ emergency_mode s'
           = emergency_mode s
             || (emergency_samples <? wrap_int (emergency_counter s + 1))).
Proof.
  destruct (sample_load_returns s) as [tr0 E0].
  set (load := if 0 <? server_capacity s then 80 else 100) in *.
  set (s0 := if 0 <? server_capacity s
             then set_server_capacity s (server_capacity s - 1) else s) in *.
  assert (Hload : shrink_threshold <= load)
    by (unfold shrink_threshold, load; destruct (0 <? server_capacity s); lia).
  pose proof (load_monitor_step_cases load s0) as Hstep.
  destruct (adapt_capacity_no_wait load (set_current_load s0 load) Hload)
    as (s1 & tr1 & E1).
  rewrite E1 in Hstep. destruct Hstep as [tr2 E2].
  exists (final (check_emergency load s1)), (tr0 ++ tr2).
  split; [exact (bind_ret_ret sample_load load_monitor_step _ _ _ _ _ _ _ E0 E2) |].
  destruct (load_monitor_step_emergency _ _ _ _ _ E2) as [Hc Hm].
  assert (Hc0 : emergency_counter s0 = emergency_counter s)
    by (unfold s0; destruct (0 <? server_capacity s); reflexivity).
  assert (Hm0 : emergency_mode s0 = emergency_mode s)
    by (unfold s0; destruct (0 <? server_capacity s); reflexivity).
  rewrite Hc0 in Hc. rewrite Hc0, Hm0 in Hm. unfold load in Hc, Hm.
  split; intros Hcap.
  - destruct (Z.ltb_spec 0 (server_capacity s)); [| lia]. simpl in Hc, Hm. auto.
  - destruct (Z.ltb_spec 0 (server_capacity s)); [lia |]. simpl in Hc, Hm. auto.
Qed.

(** C6. Starting with the counter at 0 and the emergency mode off, the
    mode is on after a sequence of samples exactly when its last 4 samples
    or more were all above the emergency threshold (95): with the counter
    compared to 3, the mode is still off after 3 such samples and turns on
    with the 4th.  One sample at or below the threshold sets the counter to
    0 and turns the mode off in the same step.  A pass of the loop of
    [load_monitor] with its own sample always completes, as a sample of 80
    when a unit of the semaphore was free and of 100 when none was. *)
Theorem emergency_hysteresis :
  (forall loads s s' tr,
      emergency_counter s = 0 -> emergency_mode s = false ->
      monitor_samples loads s = Ret tt s' tr ->
      emergency_mode s' = (4 <=? streak loads)%nat)
  /\ (forall load s c s' tr,
      load <= emergency_threshold ->
      load_monitor_step load s = Ret c s' tr ->
      emergency_counter s' = 0 /\ emergency_mode s' = false)
  /\ (forall load s c s' tr,
      emergency_mode s = false -> in_int (emergency_counter s) ->
      load_monitor_step load s = Ret c s' tr ->
      emergency_mode s' = true ->
      emergency_threshold < load /\ emergency_samples <= emergency_counter s)
  /\ (forall l1 l2 l3 l4 l5 s,
      monitor_inv s -> emergency_counter s = 0 -> emergency_mode s = false ->
      emergency_threshold < l1 -> emergency_threshold < l2 ->
      emergency_threshold < l3 -> emergency_threshold < l4 ->
      l5 <= emergency_threshold ->
      exists s3 tr3 s4 tr4 s5 tr5,
        monitor_samples [l1; l2; l3] s = Ret tt s3 tr3
        /\ emergency_mode s3 = false
        /\ load_monitor_step l4 s3 = Ret Continue s4 tr4
        /\ emergency_mode s4 = true
        /\ load_monitor_step l5 s4 = Ret Continue s5 tr5
        /\ emergency_mode s5 = false /\ emergency_counter s5 = 0)
  /\ (forall s,
      exists s' tr,
        load_monitor_iteration s = Ret Continue s' tr
        /\ (0 < server_capacity s ->
            emergency_counter s' = 0 /\ emergency_mode s' = false)
        /\ (server_capacity s <= 0 ->
            emergency_counter s' = wrap_int (emergency_counter s + 1)
            /\ emergency_mode s'
               = emergency_mode s
                 || (emergency_samples <? wrap_int (emergency_counter s + 1)))).
Proof.
  split; [| split; [| split; [| split; [| exact load_monitor_iteration_returns]]]].
  - intros loads s s' tr Hc Hm Hrun.
    apply (monitor_samples_streak loads 0 s s' tr); auto.
  - exact step_below_clears.
  - exact step_turns_on.
  - intros l1 l2 l3 l4 l5 s Hinv Hc Hm H1 H2 H3 H4 H5.
    destruct (monitor_samples_returns [l1; l2; l3] s Hinv) as (s3 & tr3 & E3 & Hinv3).
    destruct (monitor_samples_streak [l1; l2; l3] 0 s s3 tr3 Hm (fun _ => Hc) E3)
      as [Hm3 Hc3].
    unfold streak_from in Hm3, Hc3. simpl in Hm3, Hc3.
    apply Z.ltb_lt in H1, H2, H3. rewrite H1, H2, H3 in Hm3, Hc3.
    simpl in Hm3. specialize (Hc3 (le_n 3)).
    destruct (load_monitor_step_returns l4 s3 Hinv3) as (s4 & tr4 & E4 & Hinv4).
    destruct (load_monitor_step_emergency l4 s3 _ s4 tr4 E4) as [_ Hm4].
    apply Z.ltb_lt in H4. rewrite H4, Hm3, Hc3 in Hm4.
    destruct (load_monitor_step_returns l5 s4 Hinv4) as (s5 & tr5 & E5 & _).
    destruct (step_below_clears l5 s4 _ s5 tr5 H5 E5) as [Hc5 Hm5].
    exists s3, tr3, s4, tr4, s5, tr5. repeat split; assumption.
Qed.

(** Four samples above 95 from program start. *)
Lemma emergency_hysteresis_witness :
  exists s' tr,
    monitor_samples [96; 100; 97; 100] initial_state = Ret tt s' tr
    /\ emergency_mode s' = true.
Proof.
  eexists. eexists. split; [vm_compute; reflexivity |].
  apply (proj1 emergency_hysteresis [96; 100; 97; 100] initial_state _
           [Release; Print_handler_added 96 6; Sleep_ms 500;
            Release; Print_handler_added 100 7; Sleep_ms 500;
            Release; Print_handler_added 97 8; Sleep_ms 500;
            Release; Print_handler_added 100 9; Print_emergency_on; Sleep_ms 500]).
  - reflexivity.
  - reflexivity.
  - vm_compute. reflexivity.
Defined.

(** *** The handler *)

Lemma handler_iteration_on_empty s :
  data_queue s = [] ->
  data_handler_iteration s = Ret Continue s [Sleep_ms 100].
Proof. intros E. unfold data_handler_iteration. run. now rewrite E. Qed.

Lemma handler_iteration_continues s c s' tr :
  data_handler_iteration s = Ret c s' tr -> c = Continue.
Proof.
  unfold data_handler_iteration, process_data, acquire, release. run.
  destruct (if negb (empty (data_queue s))
            then pop ComparePriority (data_queue s) else None)
    as [[data rest] |]; simpl.
  - destruct (0 <? server_capacity s); simpl; congruence.
  - congruence.
Qed.

Lemma data_handler_never_returns : forall fuel s,
  returns (data_handler fuel s) = false.
Proof.
  induction fuel as [| fuel IH]; intros s; [reflexivity |].
  unfold data_handler in *.
  destruct (data_handler_iteration s) as [c s1 tr1 | s1 tr1 | s1 tr1] eqn:E.
  - pose proof (handler_iteration_continues _ _ _ _ E). subst c.
    destruct (while_true_continue _ fuel _ _ _ E) as (_ & _ & ->). apply IH.
  - rewrite while_true_step. unfold bind. now rewrite E.
  - rewrite while_true_step. unfold bind. now rewrite E.
Qed.

End MonitoringFacts.

(** * Further properties of the code *)

(** ** The comparators as orderings *)

Lemma rank_le_antisym r1 r2 : rank_le r1 r2 -> rank_le r2 r1 -> r1 = r2.
Proof.
  destruct r1 as [[p1 n1] c1], r2 as [[p2 n2] c2]. unfold rank_le.
  intros H1 H2.
  assert (p1 = p2) by lia. subst p2.
  assert (n1 = n2) by (destruct n1, n2; intuition (try discriminate; try lia)).
  subst n2.
  assert (c1 = c2) by (destruct n1; intuition (try discriminate; try lia)).
  now subst c2.
Qed.

Lemma rank_le_refl r : rank_le r r.
Proof. destruct r as [[p n] c]. unfold rank_le. right. split; [reflexivity |]. right. split; [reflexivity | lia]. Qed.

(** X1. [ComparePriority] of the quantum scheduler is a strict weak
    ordering, as [std::priority_queue] requires of its comparator: it is
    irreflexive, asymmetric and transitive, and two tasks are ordered
    neither way exactly when they agree on priority, critical flag and
    duration, whatever their ids, qubits and split flags. *)
Theorem quantum_compare_strict_weak_order :
  (forall a, Quantum.ComparePriority a a = false)
  /\ (forall a b,
      Quantum.ComparePriority a b = true -> Quantum.ComparePriority b a = false)
  /\ (forall a b c,
      Quantum.ComparePriority a b = true -> Quantum.ComparePriority b c = true ->
      Quantum.ComparePriority a c = true)
  /\ (forall a b,
      Quantum.ComparePriority a b = false /\ Quantum.ComparePriority b a = false
      <-> Quantum.priority a = Quantum.priority b
          /\ Quantum.is_critical a = Quantum.is_critical b
          /\ Quantum.duration a = Quantum.duration b).
Proof.
  split; [| split; [| split]].
  - intros a. apply quantum_compare_rank, rank_le_refl.
  - exact quantum_compare_asym.
  - exact (StdQueueFacts.comp_trans Quantum.ComparePriority
             quantum_compare_asym quantum_compare_negtrans).
  - intros a b. rewrite !quantum_compare_rank. split.
    + intros [H1 H2]. pose proof (rank_le_antisym _ _ H1 H2) as E.
      unfold Quantum.rank in E. injection E as Hp Hc Hd.
      repeat split; try assumption.
      destruct (Quantum.is_critical a), (Quantum.is_critical b);
        simpl in Hc; congruence.
    + intros (Hp & Hc & Hd). unfold Quantum.rank. rewrite Hp, Hc, Hd.
      split; apply rank_le_refl.
Qed.

(** X2. [ComparePriority] of the monitoring server is a strict weak
    ordering too: irreflexive, asymmetric, transitive, and two records are
    ordered neither way exactly when they agree on priority, critical flag
    and size, whatever their station and payload. *)
Theorem monitoring_compare_strict_weak_order :
  (forall a, Monitoring.ComparePriority a a = false)
  /\ (forall a b,
      Monitoring.ComparePriority a b = true ->
      Monitoring.ComparePriority b a = false)
  /\ (forall a b c,
      Monitoring.ComparePriority a b = true ->
      Monitoring.ComparePriority b c = true ->
      Monitoring.ComparePriority a c = true)
  /\ (forall a b,
      Monitoring.ComparePriority a b = false
      /\ Monitoring.ComparePriority b a = false
      <-> Monitoring.priority a = Monitoring.priority b
          /\ Monitoring.is_critical a = Monitoring.is_critical b
          /\ Monitoring.size a = Monitoring.size b).
Proof.
  split; [| split; [| split]].
  - intros a. apply monitoring_compare_rank, rank_le_refl.
  - exact monitoring_compare_asym.
  - exact (StdQueueFacts.comp_trans Monitoring.ComparePriority
             monitoring_compare_asym monitoring_compare_negtrans).
  - intros a b. rewrite !monitoring_compare_rank. split.
    + intros [H1 H2]. pose proof (rank_le_antisym _ _ H1 H2) as E.
      unfold Monitoring.rank in E. injection E as Hp Hc Hd.
      repeat split; try assumption.
      destruct (Monitoring.is_critical a), (Monitoring.is_critical b);
        simpl in Hc; congruence.
    + intros (Hp & Hc & Hd). unfold Monitoring.rank. rewrite Hp, Hc, Hd.
      split; apply rank_le_refl.
Qed.

(** ** Counting in traces *)

Lemma count_app {E} (p : E -> bool) tr1 tr2 :
  count p (tr1 ++ tr2) = (count p tr1 + count p tr2)%nat.
Proof. unfold count. now rewrite filter_app, length_app. Qed.

Lemma count_perm {E} (p : E -> bool) l l' :
  Permutation l l' -> count p l = count p l'.
Proof.
  induction 1 as [| x l l' _ IH | x y l | l l' l'' _ IH1 _ IH2];
    unfold count in *; simpl; try reflexivity.
  - destruct (p x); simpl; congruence.
  - destruct (p x), (p y); reflexivity.
  - congruence.
Qed.

Lemma sum_Z_app l1 l2 : sum_Z (l1 ++ l2) = sum_Z l1 + sum_Z l2.
Proof. induction l1 as [| x l1 IH]; simpl; [reflexivity | rewrite IH; lia]. Qed.

Lemma sum_Z_perm l l' : Permutation l l' -> sum_Z l = sum_Z l'.
Proof. induction 1; simpl; lia. Qed.

Lemma while_true_continue_waits {S E} (body : M S E loop_ctl) fuel s s1 tr1 :
  body s = Ret Continue s1 tr1 ->
  waits (while_true (Datatypes.S fuel) body s) = waits (while_true fuel body s1).
Proof.
  intros Hb. rewrite while_true_step. unfold bind. rewrite Hb.
  destruct (while_true fuel body s1); reflexivity.
Qed.

Lemma while_true_stuck {S E} (body : M S E loop_ctl) fuel s s1 tr1 :
  body s = Blocked s1 tr1 ->
  while_true (Datatypes.S fuel) body s = Blocked s1 tr1.
Proof. intros Hb. rewrite while_true_step. unfold bind. now rewrite Hb. Qed.

Lemma while_true_ret_inv {S E} (body : M S E loop_ctl) fuel s s' tr :
  while_true (Datatypes.S fuel) body s = Ret tt s' tr ->
  body s = Ret Break s' tr
  \/ exists s1 tr1 tr2,
       body s = Ret Continue s1 tr1
       /\ while_true fuel body s1 = Ret tt s' tr2
       /\ tr = tr1 ++ tr2.
Proof.
  rewrite while_true_step. intros H. apply bind_ret_inv in H.
  destruct H as ([] & s1 & tr1 & tr2 & Hb & Hk & ->).
  - left. injection Hk as <- <-. now rewrite app_nil_r.
  - right. now exists s1, tr1, tr2.
Qed.

(** ** The worker of the quantum scheduler, pass by pass *)

Module QuantumExtra.
Import StdQueue Quantum QuantumTrace.

Section passes.
Variable rand_seq : nat -> Z.
Variable processor_id : Z.

Lemma worker_iteration_pass s :
  pass rand_seq processor_id s (worker_iteration rand_seq processor_id s).
Proof.
  destruct (pop ComparePriority (task_queue s)) as [[task rest] |] eqn:Hpop.
  - destruct (should_split task) eqn:Hsplit.
    + rewrite (QuantumFacts.iteration_splits _ _ _ _ _ Hpop Hsplit).
      apply (pass_split _ _ s task rest); assumption.
    + rewrite (QuantumFacts.iteration_dispatches _ _ _ _ _ Hpop Hsplit).
      unfold bind.
      destruct (Z.eq_dec processor_id (failed_processor s)) as [Ef | Nf].
      * rewrite QuantumFacts.process_on_failed by exact Ef.
        simpl. apply (pass_failed _ _ s task rest); assumption.
      * destruct (Z.lt_ge_cases 0 (quantum_processors s)) as [Hq | Hq].
        -- rewrite QuantumFacts.process_on_working by assumption.
           simpl. apply (pass_executed _ _ s task rest); assumption.
        -- rewrite QuantumFacts.process_blocked by (simpl; assumption || lia).
           apply (pass_waits _ _ s task rest); assumption || lia.
  - apply StdQueueFacts.pop_empty in Hpop.
    assert (Hq : task_queue s = [])
      by (destruct (task_queue s); [reflexivity | discriminate]).
    rewrite (QuantumFacts.iteration_on_empty _ _ _ Hq). now apply pass_empty.
Qed.

Lemma worker_loop_balance : forall fuel s,
  let o := process_quantum_tasks rand_seq fuel processor_id s in
  quantum_processors (final o) = quantum_processors s
  /\ failed_processor (final o) = failed_processor s
  /\ count is_acquire (trace o)
     = (count is_release (trace o) + (if waits o then 1 else 0))%nat.
Proof.
  induction fuel as [| fuel IH]; intros s; [simpl; auto |].
  cbv zeta. unfold process_quantum_tasks in *.
  pose proof (worker_iteration_pass s) as Hp.
  inversion Hp as [s0 Hq Es Eo | s0 task rest Hpop Hsplit Es Eo
                  | s0 task rest Hpop Hsplit Hf Es Eo
                  | s0 task rest Hpop Hsplit Hf Hu Es Eo
                  | s0 task rest Hpop Hsplit Hf Hu Es Eo];
    subst s0; symmetry in Eo.
  - rewrite (while_true_break _ fuel _ _ _ Eo). simpl. auto.
  - destruct (while_true_continue _ fuel _ _ _ Eo) as (-> & -> & _).
    rewrite (while_true_continue_waits _ fuel _ _ _ Eo).
    destruct (IH (after_split rand_seq s task rest)) as (H1 & H2 & H3).
    rewrite !count_app, H1, H2, H3. simpl. auto.
  - destruct (while_true_continue _ fuel _ _ _ Eo) as (-> & -> & _).
    rewrite (while_true_continue_waits _ fuel _ _ _ Eo).
    destruct (IH (set_task_queue s rest)) as (H1 & H2 & H3).
    rewrite !count_app, H1, H2, H3. simpl. auto.
  - destruct (while_true_continue _ fuel _ _ _ Eo) as (-> & -> & _).
    rewrite (while_true_continue_waits _ fuel _ _ _ Eo).
    destruct (IH (set_task_queue s rest)) as (H1 & H2 & H3).
    rewrite !count_app, H1, H2, H3. simpl. auto.
  - rewrite (while_true_stuck _ fuel _ _ _ Eo). simpl. auto.
Qed.

(** X3. Whatever the worker loop does and however it ends (queue emptied,
    waiting in [acquire()], or still running), it leaves the counter of
    [quantum_processors] and [failed_processor] as it found them, and its
    calls of [acquire()] and [release()] are in balance: as many of each,
    and one more [acquire()] only when it ends waiting in that call. *)
Theorem worker_loop_keeps_units (fuel : nat) (s : State) :
  let o := process_quantum_tasks rand_seq fuel processor_id s in
  quantum_processors (final o) = quantum_processors s
  /\ failed_processor (final o) = failed_processor s
  /\ count is_acquire (trace o)
     = (count is_release (trace o) + (if waits o then 1 else 0))%nat.
Proof. apply worker_loop_balance. Qed.

(** *** Nothing queued is lost *)

Lemma dispatches_due_perm q q' :
  Permutation q q' -> dispatches_due q = dispatches_due q'.
Proof.
  intros H. unfold dispatches_due.
  apply QuantumFacts.list_sum_perm. now apply Permutation_map.
Qed.

Lemma time_due_perm q q' : Permutation q q' -> time_due q = time_due q'.
Proof. intros H. unfold time_due. apply sum_Z_perm. now apply Permutation_map. Qed.

Lemma splits_due_perm q q' : Permutation q q' -> splits_due q = splits_due q'.
Proof. apply count_perm. Qed.

(** What is due on a queue, by its top and the rest. *)
Lemma due_pop q task rest :
  pop ComparePriority q = Some (task, rest) ->
  dispatches_due q = (dispatches_of task + dispatches_due rest)%nat
  /\ time_due q = time_of task + time_due rest
  /\ splits_due q
     = ((if should_split task then 1 else 0) + splits_due rest)%nat.
Proof.
  intros H. apply StdQueueFacts.pop_perm in H.
  rewrite (dispatches_due_perm _ _ H), (time_due_perm _ _ H),
    (splits_due_perm _ _ H).
  unfold splits_due, count. simpl. destruct (should_split task); auto.
Qed.

(** What is due on the queue a split leaves. *)
Lemma due_after_split s task rest :
  should_split task = true ->
  let q := task_queue (after_split rand_seq s task rest) in
  dispatches_due q = (dispatches_of task + dispatches_due rest)%nat
  /\ time_due q = time_of task + time_due rest
  /\ splits_due q = splits_due rest.
Proof.
  intros Hsplit. cbv zeta. simpl.
  set (c1 := split_task task (rand_seq (rand_calls s))).
  set (c2 := split_task task (rand_seq (Datatypes.S (rand_calls s)))).
  assert (Hperm : Permutation (push c2 (push c1 rest)) (c2 :: c1 :: rest)).
  { rewrite StdQueueFacts.push_perm. constructor. apply StdQueueFacts.push_perm. }
  rewrite (dispatches_due_perm _ _ Hperm), (time_due_perm _ _ Hperm),
    (splits_due_perm _ _ Hperm).
  assert (H1 : should_split c1 = false) by apply QuantumFacts.child_not_split.
  assert (H2 : should_split c2 = false) by apply QuantumFacts.child_not_split.
  assert (D1 : duration c1 = cdiv (duration task) 2) by reflexivity.
  assert (D2 : duration c2 = cdiv (duration task) 2) by reflexivity.
  clearbody c1 c2.
  unfold dispatches_due, time_due, splits_due, count, list_sum, sum_Z.
  cbn [map fold_right filter]. rewrite H1, H2.
  unfold dispatches_of, time_of. rewrite Hsplit, H1, H2, D1, D2.
  repeat split; lia.
Qed.

Lemma worker_loop_accounts : forall fuel s s' tr,
  process_quantum_tasks rand_seq fuel processor_id s = Ret tt s' tr ->
  task_queue s' = []
  /\ count is_dispatch tr = dispatches_due (task_queue s)
  /\ count is_splitting tr = splits_due (task_queue s)
  /\ (processor_id = failed_processor s ->
      count is_failed tr = dispatches_due (task_queue s)
      /\ total_sleep tr = 0)
  /\ (processor_id <> failed_processor s ->
      count is_started tr = dispatches_due (task_queue s)
      /\ total_sleep tr = time_due (task_queue s)).
Proof.
  induction fuel as [| fuel IH]; intros s s' tr Hrun; [discriminate |].
  unfold process_quantum_tasks in *.
  apply while_true_ret_inv in Hrun.
  pose proof (worker_iteration_pass s) as Hp.
  destruct Hrun as [Hb | (s1 & tr1 & tr2 & Hb & Hrest & ->)]; rewrite Hb in Hp.
  - inversion Hp as [s0 Hq | | | |]; subst. rewrite Hq.
    repeat split; reflexivity.
  - specialize (IH _ _ _ Hrest).
    destruct IH as (Hempty & Hd & Hs & Hfail & Hwork).
    unfold total_sleep in *.
    inversion Hp as [| s0 task rest Hpop Hsplit
                     | s0 task rest Hpop Hsplit Hf
                     | s0 task rest Hpop Hsplit Hf Hu |]; subst;
      destruct (due_pop _ _ _ Hpop) as (Dd & Dt & Ds).
    + destruct (due_after_split s task rest Hsplit) as (Ad & At & As).
      cbv zeta in Ad, At, As.
      rewrite !count_app, map_app, sum_Z_app, Hd, Hs, Dd, Dt, Ds, Ad, As, Hsplit.
      split; [exact Hempty |]. split; [reflexivity |]. split; [reflexivity |].
      split; intros Hcase.
      * destruct (Hfail Hcase) as [F1 F2]. rewrite F1, F2, Ad. auto.
      * destruct (Hwork Hcase) as [W1 W2]. rewrite W1, W2, Ad, At. auto.
    + simpl task_queue in *. simpl failed_processor in *.
      rewrite !count_app, map_app, sum_Z_app, Hd, Hs, Dd, Dt, Ds, Hsplit.
      unfold dispatches_of, time_of. rewrite Hsplit.
      split; [exact Hempty |]. split; [reflexivity |]. split; [reflexivity |].
      split; intros Hcase; [| contradiction].
      destruct (Hfail Hcase) as [F1 F2]. rewrite F1, F2. auto.
    + simpl task_queue in *. simpl failed_processor in *.
      rewrite !count_app, map_app, sum_Z_app, Hd, Hs, Dd, Dt, Ds, Hsplit.
      unfold dispatches_of, time_of. rewrite Hsplit.
      split; [exact Hempty |]. split; [reflexivity |]. split; [reflexivity |].
      split; intros Hcase; [contradiction |].
      destruct (Hwork Hcase) as [W1 W2]. rewrite W1, W2. simpl. split; [reflexivity | lia].
Qed.

(** X4. A worker loop that returns has emptied the queue and lost
    nothing: it handed to [process_quantum_task] one task for every queued
    task that needed no split and two for every one that did, and it
    announced exactly one split for each of the latter. *)
Theorem worker_dispatches_everything (fuel : nat) (s s' : State) (tr : list Event)
  (Hrun : process_quantum_tasks rand_seq fuel processor_id s = Ret tt s' tr) :
  task_queue s' = []
  /\ count is_dispatch tr = dispatches_due (task_queue s)
  /\ count is_splitting tr = splits_due (task_queue s)
  /\ (dispatches_due (task_queue s)
      = length (task_queue s) + splits_due (task_queue s))%nat.
Proof.
  destruct (worker_loop_accounts fuel s s' tr Hrun) as (H1 & H2 & H3 & _).
  repeat split; try assumption.
  clear. induction (task_queue s) as [| t q IH]; [reflexivity |].
  unfold dispatches_due, splits_due, count, dispatches_of in *. simpl.
  destruct (should_split t); simpl; lia.
Qed.

Lemma time_due_bounds (q : list QuantumTask) :
  Forall (fun task => 0 <= duration task) q ->
  sum_Z (map duration q) - Z.of_nat (splits_due q) <= time_due q
  /\ time_due q <= sum_Z (map duration q).
Proof.
  unfold time_due, splits_due, count, sum_Z.
  induction 1 as [| t q Ht _ IH]; cbn [map fold_right filter length]; [lia |].
  unfold time_of at 1 3. unfold slept. pose proof (cdiv2_bounds _ Ht).
  destruct (should_split t); cbn [length]; lia.
Qed.

(** X5. The time a worker loop that returns has slept is the time due on
    the queue it started from: for every task that needed no split what
    [sleep_for] sleeps on its duration, and for every task that did twice
    what it sleeps on the halved duration, a duration that is not positive
    being slept as nothing.  When no duration is negative that is the sum
    of the durations less at most one millisecond for each split.  On the
    failed processor every task fails instead and the loop does not sleep
    at all. *)
Theorem worker_time_accounted (fuel : nat) (s s' : State) (tr : list Event)
  (Hrun : process_quantum_tasks rand_seq fuel processor_id s = Ret tt s' tr) :
  (processor_id <> failed_processor s ->
   count is_started tr = dispatches_due (task_queue s)
   /\ total_sleep tr = time_due (task_queue s))
  /\ (processor_id = failed_processor s ->
      count is_failed tr = dispatches_due (task_queue s)
      /\ total_sleep tr = 0)
  /\ (Forall (fun task => 0 <= duration task) (task_queue s) ->
      sum_Z (map duration (task_queue s)) - Z.of_nat (splits_due (task_queue s))
      <= time_due (task_queue s) <= sum_Z (map duration (task_queue s))).
Proof.
  destruct (worker_loop_accounts fuel s s' tr Hrun) as (_ & _ & _ & Hf & Hw).
  split; [exact Hw |]. split; [exact Hf |]. apply time_due_bounds.
Qed.

End passes.

(** Tasks 4 and 3 of [main] on processor 0: task 4 is split. *)
Lemma worker_dispatches_everything_witness :
  exists s' tr,
    process_quantum_tasks (fun _ => 7) 5 0
      (mkState [mkQuantumTask 4 1 false 2500 10 false;
                mkQuantumTask 3 2 false 1500 4 false] 4 (-1) 0)
    = Ret tt s' tr
    /\ count is_dispatch tr = 3%nat.
Proof.
  destruct (process_quantum_tasks (fun _ => 7) 5 0
              (mkState [mkQuantumTask 4 1 false 2500 10 false;
                        mkQuantumTask 3 2 false 1500 4 false] 4 (-1) 0))
    as [[] s' tr | s' tr | s' tr] eqn:E;
    [| vm_compute in E; discriminate | vm_compute in E; discriminate].
  exists s', tr. split; [reflexivity |].
  destruct (worker_dispatches_everything (fun _ => 7) 0 5 _ s' tr E)
    as (_ & H & _).
  rewrite H. reflexivity.
Defined.

(** A task of duration -10 is dispatched and slept as nothing. *)
Example negative_duration_sleeps_nothing :
  total_sleep
    (trace (process_quantum_tasks (fun _ => 0) 2 0
              (mkState [mkQuantumTask 1 1 false (-10) 2 false] 4 (-1) 0)))
  = 0
  /\ time_due [mkQuantumTask 1 1 false (-10) 2 false] = 0.
Proof. split; reflexivity. Qed.

Lemma worker_time_accounted_witness :
  exists s' tr,
    process_quantum_tasks (fun _ => 7) 5 0
      (mkState [mkQuantumTask 4 1 false 2501 10 false;
                mkQuantumTask 3 2 false 1500 4 false] 4 (-1) 0)
    = Ret tt s' tr
    /\ total_sleep tr = 4000.
Proof.
  destruct (process_quantum_tasks (fun _ => 7) 5 0
              (mkState [mkQuantumTask 4 1 false 2501 10 false;
                        mkQuantumTask 3 2 false 1500 4 false] 4 (-1) 0))
    as [[] s' tr | s' tr | s' tr] eqn:E;
    [| vm_compute in E; discriminate | vm_compute in E; discriminate].
  exists s', tr. split; [reflexivity |].
  destruct (worker_time_accounted (fun _ => 7) 0 5 _ s' tr E) as (H & _).
  destruct H as [_ H]; [simpl; lia |].
  rewrite H. reflexivity.
Defined.

(** *** The ids of sub-tasks *)

Lemma split_task_id_value task r :
  splittable_id task -> 0 <= r ->
  id (split_task task r) = id task * 100 + r mod 100
  /\ 0 <= r mod 100 < 100.
Proof.
  unfold splittable_id, int_max. intros [Hlo Hhi] Hr.
  pose proof (Z.mod_pos_bound r 100 ltac:(lia)) as Hm.
  split; [| exact Hm]. simpl. unfold cmod.
  rewrite Z.rem_mod_nonneg by lia.
  apply wrap_int_id. unfold in_int, int_min, int_max. lia.
Qed.

(** X6. For a parent whose id is at least 1 and small enough for
    [id * 100 + 99] to fit an [int], the id [split_task] gives a child is
    [id * 100 + rand() % 100]: it lies in the hundred reserved for the
    parent, is greater than the parent's id, and differs from the id of
    every child of a parent with another id. *)
Theorem split_task_id_fresh (task : QuantumTask) (r : Z)
  (Hid : splittable_id task) (Hr : 0 <= r) :
  id (split_task task r) = id task * 100 + r mod 100
  /\ id task * 100 <= id (split_task task r) <= id task * 100 + 99
  /\ id task < id (split_task task r)
  /\ forall other r',
       splittable_id other -> 0 <= r' -> id other <> id task ->
       id (split_task other r') <> id (split_task task r).
Proof.
  destruct (split_task_id_value task r Hid Hr) as [E Hm].
  pose proof Hid as [Hlo _].
  rewrite E. repeat split; try lia.
  intros other r' Hother Hr' Hne.
  destruct (split_task_id_value other r' Hother Hr') as [E' Hm'].
  rewrite E'. lia.
Qed.

Lemma split_task_id_fresh_witness :
  id (split_task (mkQuantumTask 4 1 false 2500 10 false) 1234) = 434.
Proof.
  apply (split_task_id_fresh (mkQuantumTask 4 1 false 2500 10 false) 1234).
  - unfold splittable_id, int_max. simpl. lia.
  - lia.
Defined.

(** X7. The two sub-tasks of one split differ in nothing but their ids,
    and are the same record exactly when the two values of [rand()] agree
    modulo 100: the ids of sub-tasks are not unique. *)
Theorem split_siblings_collide (task : QuantumTask) (r1 r2 : Z)
  (Hid : splittable_id task) (Hr1 : 0 <= r1) (Hr2 : 0 <= r2) :
  (split_task task r1 = split_task task r2 <-> r1 mod 100 = r2 mod 100)
  /\ set_id (split_task task r1) 0 = set_id (split_task task r2) 0.
Proof.
  destruct (split_task_id_value task r1 Hid Hr1) as [E1 _].
  destruct (split_task_id_value task r2 Hid Hr2) as [E2 _].
  split; [| reflexivity]. split.
  - intros H. apply (f_equal id) in H. rewrite E1, E2 in H. lia.
  - intros H. rewrite !QuantumFacts.split_task_fields.
    rewrite QuantumFacts.split_task_fields in E1, E2. simpl in E1, E2.
    rewrite E1, E2, H. reflexivity.
Qed.

Lemma split_siblings_collide_witness :
  split_task (mkQuantumTask 4 1 false 2500 10 false) 17
  = split_task (mkQuantumTask 4 1 false 2500 10 false) 317.
Proof.
  apply (split_siblings_collide (mkQuantumTask 4 1 false 2500 10 false) 17 317).
  - unfold splittable_id, int_max. simpl. lia.
  - lia.
  - lia.
  - reflexivity.
Defined.

(** *** The failure of a processor *)

(** X8. [simulate_processor_failure] records the failed processor and
    touches neither the queue nor the semaphore, and no worker ever
    clears the record: after any run of any worker [failed_processor] is
    still that processor, and a worker of that processor starts no task
    and calls [acquire()] never. *)
Theorem failure_is_permanent (p : Z) (s : State) :
  let s1 := final (simulate_processor_failure p s) in
  simulate_processor_failure p s
  = Ret tt s1 [Sleep_ms 2000; Print_processor_failed p]
  /\ failed_processor s1 = p
  /\ task_queue s1 = task_queue s
  /\ quantum_processors s1 = quantum_processors s
  /\ (forall rand_seq processor_id fuel,
        failed_processor
          (final (process_quantum_tasks rand_seq fuel processor_id s1)) = p)
  /\ (forall rand_seq fuel,
        let o := process_quantum_tasks rand_seq fuel p s1 in
        existsb is_acquire (trace o) = false
        /\ count is_started (trace o) = 0%nat).
Proof.
  cbv zeta. split; [reflexivity |]. split; [reflexivity |].
  split; [reflexivity |]. split; [reflexivity |]. split.
  - intros rand_seq processor_id fuel.
    destruct (worker_loop_balance rand_seq processor_id fuel
                (final (simulate_processor_failure p s))) as (_ & H & _).
    exact H.
  - intros rand_seq fuel.
    set (s1 := final (simulate_processor_failure p s)).
    assert (Hf : failed_processor s1 = p) by reflexivity. clearbody s1.
    split.
    + now apply (QuantumFacts.failed_worker_takes_no_unit rand_seq p fuel s1).
    + revert s1 Hf. induction fuel as [| fuel IH]; intros s1 Hf; [reflexivity |].
      unfold process_quantum_tasks in *.
      pose proof (worker_iteration_pass rand_seq p s1) as Hp.
      inversion Hp as [s0 Hq Es Eo | s0 task rest Hpop Hsplit Es Eo
                      | s0 task rest Hpop Hsplit Hf' Es Eo
                      | s0 task rest Hpop Hsplit Hf' Hu Es Eo
                      | s0 task rest Hpop Hsplit Hf' Hu Es Eo];
        subst s0; symmetry in Eo; try congruence.
      * now rewrite (while_true_break _ fuel _ _ _ Eo).
      * destruct (while_true_continue _ fuel _ _ _ Eo) as (-> & _ & _).
        rewrite count_app. simpl. apply IH. exact Hf.
      * destruct (while_true_continue _ fuel _ _ _ Eo) as (-> & _ & _).
        rewrite count_app. simpl. apply IH. exact Hf.
Qed.

End QuantumExtra.

Lemma bind_ret_waits {S E A B} (m : M S E A) (k : A -> M S E B) s a s1 tr1 :
  m s = Ret a s1 tr1 -> waits (bind m k s) = waits (k a s1).
Proof. intros Hm. unfold bind. rewrite Hm. now destruct (k a s1). Qed.

(** A loop whose body always goes round never leaves and never waits. *)
Lemma while_true_runs {S E} (body : M S E loop_ctl) :
  (forall s, exists s1 tr1, body s = Ret Continue s1 tr1) ->
  forall fuel s, exists s' tr, while_true fuel body s = Running s' tr.
Proof.
  intros Hbody. induction fuel as [| fuel IH]; intros s.
  - exists s, []. reflexivity.
  - destruct (Hbody s) as (s1 & tr1 & E1). destruct (IH s1) as (s' & tr & E2).
    exists s', (tr1 ++ tr). rewrite while_true_step. unfold bind.
    now rewrite E1, E2.
Qed.

(** ** The monitoring server, thread by thread *)

Module MonitoringExtra.
Import StdQueue Monitoring MonitoringTrace.

(** *** The stations *)

Lemma station_iteration_outcome station p c sz pause s :
  let data := generate station p c sz in
  exists tr,
    monitoring_station_iteration station p c sz pause s
    = Ret Continue
        (if sheds s data then s
         else set_data_queue s (push data (data_queue s)))
        tr
    /\ count is_semaphore tr = 0%nat.
Proof.
  cbv zeta. unfold monitoring_station_iteration, sheds.
  set (data := generate station p c sz). clearbody data.
  unfold bind, get, modify, emit, ret.
  destruct ((overload_threshold <? current_load s) && negb (is_critical data)
            && (overload_cutoff <? priority data)); cbn [orb].
  - eexists. split; reflexivity.
  - destruct (emergency_mode s && (emergency_cutoff <? priority data)
              && negb (is_critical data)).
    + eexists. split; reflexivity.
    + eexists. split; reflexivity.
Qed.

(** X9. A station never sheds a critical record nor one of priority 1 or
    2: whatever the load and the mode, it pushes the record and announces
    it. *)
Theorem station_keeps_important
  (station p : Z) (c : bool) (sz pause : Z) (s : State)
  (Himportant : c = true \/ p <= emergency_cutoff) :
  monitoring_station_iteration station p c sz pause s
  = Ret Continue
      (set_data_queue s (push (generate station p c sz) (data_queue s)))
      [Print_sent (generate station p c sz); Sleep_ms (300 + pause)].
Proof.
  unfold monitoring_station_iteration.
  set (data := generate station p c sz).
  assert (Hc : is_critical data = c) by reflexivity.
  assert (Hp : priority data = p) by reflexivity.
  clearbody data. unfold bind, get, modify, emit, ret.
  unfold emergency_cutoff, overload_cutoff in *. rewrite Hc, Hp.
  destruct Himportant as [-> | Hle].
  - destruct (overload_threshold <? current_load s), (3 <? p),
      (emergency_mode s), (2 <? p); reflexivity.
  - destruct (Z.ltb_spec 3 p); [lia |]. destruct (Z.ltb_spec 2 p); [lia |].
    destruct (overload_threshold <? current_load s), c, (emergency_mode s);
      reflexivity.
Qed.

Lemma station_keeps_important_witness :
  data_queue
    (final (monitoring_station_iteration 7 5 true 640 0
              (mkState [] 0 100 true 10 9)))
  = [generate 7 5 true 640].
Proof.
  rewrite (station_keeps_important 7 5 true 640 0 (mkState [] 0 100 true 10 9)).
  - reflexivity.
  - left. reflexivity.
Defined.

Lemma sheds_set_data_queue s q data :
  sheds (set_data_queue s q) data = sheds s data.
Proof. reflexivity. Qed.

Lemma station_loop_outcome station : forall draws s,
  let o := monitoring_station station draws s in
  returns o = false /\ waits o = false
  /\ final o
     = set_data_queue s
         (push_all (filter (fun d => negb (sheds s d)) (generated station draws))
            (data_queue s))
  /\ count is_semaphore (trace o) = 0%nat.
Proof.
  induction draws as [| [[[p c] sz] pause] draws IH]; intros s; cbv zeta.
  - simpl. unfold set_data_queue. rewrite MonitoringFacts.monitoring_state_eta.
    auto.
  - destruct (station_iteration_outcome station p c sz pause s) as (tr1 & E1 & Hs1).
    cbv zeta in E1. cbn [monitoring_station].
    set (k := fun _ : loop_ctl => monitoring_station station draws).
    destruct (bind_ret _ k s _ _ _ E1) as (Ht & Hf & Hr).
    rewrite Ht, Hf, Hr, (bind_ret_waits _ k s _ _ _ E1). subst k. cbv beta.
    rewrite count_app, Hs1.
    set (data := generate station p c sz) in *.
    change (generated station ((p, c, sz, pause) :: draws))
      with (data :: generated station draws).
    cbn [filter].
    destruct (sheds s data) eqn:Hshed; cbn [negb].
    + destruct (IH s) as (I1 & I2 & I3 & I4). auto.
    + destruct (IH (set_data_queue s (push data (data_queue s))))
        as (I1 & I2 & I3 & I4).
      split; [exact I1 |]. split; [exact I2 |].
      split; [rewrite I3; reflexivity | exact I4].
Qed.

(** X10. A station never leaves its loop and never waits; it calls
    nothing on the semaphore and changes nothing of the shared state but
    the queue, to which its passes add exactly the records it generated
    that the load and the mode it found do not shed, in the order of their
    generation. *)
Theorem station_loop_only_pushes
  (station : Z) (draws : list (Z * bool * Z * Z)) (s : State) :
  let o := monitoring_station station draws s in
  returns o = false /\ waits o = false
  /\ final o
     = set_data_queue s
         (push_all (filter (fun d => negb (sheds s d)) (generated station draws))
            (data_queue s))
  /\ count is_semaphore (trace o) = 0%nat
  /\ (length (data_queue s) <= length (data_queue (final o))
      <= length (data_queue s) + length draws)%nat.
Proof.
  cbv zeta.
  destruct (station_loop_outcome station draws s) as (H1 & H2 & H3 & H4).
  repeat split; try assumption; rewrite H3; simpl;
    rewrite (Permutation_length (StdQueueFacts.push_all_perm _ _)), length_app.
  - lia.
  - pose proof (filter_length_le (fun d => negb (sheds s d))
                  (generated station draws)) as Hle.
    unfold generated in Hle at 2. rewrite length_map in Hle. lia.
Qed.

(** *** The handlers *)

Lemma process_data_outcome data s :
  (0 < server_capacity s ->
   process_data data s
   = Ret tt s [Acquire; Print_processing data;
               Sleep_ms (cdiv (size data) 100); Release;
               Print_processed (station_id data)])
  /\ (server_capacity s <= 0 -> process_data data s = Blocked s [Acquire]).
Proof.
  unfold process_data, acquire, release, bind, get, put, modify, emit, ret, block.
  split; intros Hcap.
  - destruct (Z.ltb_spec 0 (server_capacity s)); [| lia]. simpl.
    unfold set_server_capacity. simpl.
    replace (server_capacity s - 1 + 1) with (server_capacity s) by lia.
    now rewrite MonitoringFacts.monitoring_state_eta.
  - destruct (Z.ltb_spec 0 (server_capacity s)); [lia |]. reflexivity.
Qed.

(** X11. A handler that finds the queue not empty takes from it a record
    that no queued record outranks (lower priority number first, then
    critical first, then smaller first) and leaves the others.  With a
    unit of [server_capacity] free it processes the record for
    [size / 100] ms between one [acquire()] and one [release()] and leaves
    the semaphore as it was; with none free it waits in [acquire()], the
    record already off the queue. *)
Theorem handler_serves_top (s : State) (Hne : data_queue s <> []) :
  exists data rest,
    pop ComparePriority (data_queue s) = Some (data, rest)
    /\ Permutation (data_queue s) (data :: rest)
    /\ (forall y, In y (data_queue s) -> rank_le (rank data) (rank y))
    /\ (0 < server_capacity s ->
        data_handler_iteration s
        = Ret Continue (set_data_queue s rest)
            [Acquire; Print_processing data;
             Sleep_ms (cdiv (size data) 100); Release;
             Print_processed (station_id data)])
    /\ (server_capacity s <= 0 ->
        data_handler_iteration s = Blocked (set_data_queue s rest) [Acquire]).
Proof.
  assert (Hempty : empty (data_queue s) = false)
    by (destruct (data_queue s); [contradiction | reflexivity]).
  destruct (StdQueueFacts.pop_nonempty ComparePriority _ Hempty)
    as (data & rest & Hpop).
  exists data, rest. split; [exact Hpop |].
  destruct (StdQueueFacts.pop_pop_step ComparePriority
              monitoring_compare_asym monitoring_compare_negtrans _ _ _ Hpop)
    as [[_ Hmax] Hperm].
  split; [exact Hperm |].
  split; [intros y Hy; apply monitoring_compare_rank, Hmax, Hy |].
  destruct (process_data_outcome data (set_data_queue s rest)) as [Hrun Hwait].
  split; intros Hcap; unfold data_handler_iteration;
    cbv beta iota delta [bind get put]; rewrite Hempty; cbn [negb];
    rewrite Hpop; cbv beta iota.
  - rewrite (Hrun Hcap). reflexivity.
  - rewrite (Hwait Hcap). reflexivity.
Qed.

Lemma handler_serves_top_witness :
  exists data rest,
    pop ComparePriority
      [generate 1 3 false 500; generate 2 3 true 900; generate 3 4 true 100]
    = Some (data, rest)
    /\ data = generate 2 3 true 900.
Proof.
  destruct (handler_serves_top
              (mkState [generate 1 3 false 500; generate 2 3 true 900;
                        generate 3 4 true 100] 5 0 false 5 0))
    as (data & rest & Hpop & _).
  - discriminate.
  - exists data, rest. split; [exact Hpop |].
    vm_compute in Hpop. injection Hpop as <- _. vm_compute. reflexivity.
Defined.

(** *** The load monitor *)

Lemma step_at_80 s :
  exists tr,
    load_monitor_step 80 s
    = Ret Continue
        (mkState (data_queue s) (server_capacity s) 80 false
           (active_handlers s) 0)
        tr.
Proof.
  unfold load_monitor_step, adapt_capacity, check_emergency,
    bind, get, put, modify, emit, ret. simpl.
  destruct (emergency_mode s) eqn:Hm; eexists;
    unfold set_emergency_mode, set_emergency_counter, set_current_load; simpl;
    rewrite ?Hm; reflexivity.
Qed.

Lemma iteration_with_free_unit s :
  0 < server_capacity s ->
  exists tr,
    load_monitor_iteration s
    = Ret Continue
        (mkState (data_queue s) (server_capacity s - 1) 80 false
           (active_handlers s) 0)
        tr.
Proof.
  intros Hfree. destruct (MonitoringFacts.sample_load_returns s) as [tr0 E0].
  destruct (Z.ltb_spec 0 (server_capacity s)); [| lia].
  destruct (step_at_80 (set_server_capacity s (server_capacity s - 1)))
    as [tr1 E1].
  exists (tr0 ++ tr1).
  exact (bind_ret_ret sample_load load_monitor_step _ _ _ _ _ _ _ E0 E1).
Qed.

Lemma monitor_drains : forall n s,
  Z.of_nat n <= server_capacity s ->
  let s' := final (load_monitor n s) in
  server_capacity s' = server_capacity s - Z.of_nat n
  /\ active_handlers s' = active_handlers s
  /\ data_queue s' = data_queue s
  /\ ((0 < n)%nat ->
      current_load s' = 80 /\ emergency_mode s' = false
      /\ emergency_counter s' = 0).
Proof.
  induction n as [| n IH]; intros s Hn; cbv zeta.
  - simpl. repeat split; try lia.
  - destruct (iteration_with_free_unit s ltac:(lia)) as [tr E].
    unfold load_monitor in *.
    destruct (while_true_continue _ n _ _ _ E) as (_ & -> & _).
    set (s1 := mkState (data_queue s) (server_capacity s - 1) 80 false
                 (active_handlers s) 0) in *.
    destruct (IH s1) as (H1 & H2 & H3 & H4); [simpl; lia |].
    cbv zeta in H1, H2, H3, H4. rewrite H1, H2, H3. simpl.
    repeat split; try lia.
    + destruct n as [| n]; [reflexivity |]. apply H4. lia.
    + destruct n as [| n]; [reflexivity |]. apply H4. lia.
    + destruct n as [| n]; [reflexivity |]. apply H4. lia.
Qed.

(** X12. The unit that the sampling of [load_monitor] takes with its
    first [try_acquire()] is not given back: a pass that finds a unit free
    reads the load as 80, leaves one unit less, adapts nothing and clears
    the emergency; the monitor running alone for [n] passes with at least
    [n] units free leaves [n] units less and the same number of handlers. *)
Theorem sampling_takes_a_unit (n : nat) (s : State)
  (Hfree : Z.of_nat n <= server_capacity s) :
  let s' := final (load_monitor n s) in
  server_capacity s' = server_capacity s - Z.of_nat n
  /\ active_handlers s' = active_handlers s
  /\ data_queue s' = data_queue s
  /\ ((0 < n)%nat ->
      current_load s' = 80 /\ emergency_mode s' = false
      /\ emergency_counter s' = 0).
Proof. now apply monitor_drains. Qed.

(** The five units of program start, gone after five passes. *)
Lemma sampling_takes_a_unit_witness :
  server_capacity (final (load_monitor 5 initial_state)) = 0.
Proof.
  destruct (sampling_takes_a_unit 5 initial_state) as (H & _).
  - simpl. lia.
  - rewrite H. reflexivity.
Defined.

Lemma step_current_load load s c s' tr :
  load_monitor_step load s = Ret c s' tr -> current_load s' = load.
Proof.
  intros Hstep. pose proof (MonitoringFacts.load_monitor_step_cases load s) as H.
  pose proof (MonitoringFacts.adapt_capacity_frame load (set_current_load s load))
    as F.
  cbv zeta in F.
  destruct (adapt_capacity load (set_current_load s load)) as [[] s1 tr1 | |];
    [| congruence | congruence].
  destruct H as [tr' H]. rewrite H in Hstep. injection Hstep as _ <- _.
  simpl in F. destruct F as (_ & _ & _ & Fl).
  destruct (MonitoringFacts.check_emergency_returns load s1) as [tr2 ->]. simpl.
  destruct (emergency_threshold <? load); simpl; exact Fl.
Qed.

(** One pass with the load it samples, from a state within the bounds. *)
Lemma iteration_grows s :
  min_handlers <= active_handlers s <= max_handlers ->
  exists s1 tr1,
    load_monitor_iteration s = Ret Continue s1 tr1
    /\ active_handlers s <= active_handlers s1 <= max_handlers
    /\ (current_load s1 = 80 \/ current_load s1 = 100).
Proof.
  intros Hinv.
  destruct (MonitoringFacts.load_monitor_iteration_returns s) as (s1 & tr1 & E & _).
  exists s1, tr1. split; [exact E |].
  destruct (MonitoringFacts.load_monitor_iteration_final s)
    as (load & s0 & Hload & Ha & _ & _ & Hf & _).
  rewrite E in Hf. simpl in Hf.
  rewrite <- Ha in Hinv.
  destruct (MonitoringFacts.load_monitor_step_bounds load s0 Hinv)
    as (Hb & _ & Hdown & Hcases).
  cbv zeta in Hb, Hdown, Hcases. rewrite <- Hf in Hb, Hdown, Hcases.
  rewrite <- Ha. unfold shrink_threshold in Hdown.
  split; [lia |].
  (* the load stored is the load sampled *)
  destruct (MonitoringFacts.sample_load_returns s) as [tr0 E0].
  unfold load_monitor_iteration in E. apply bind_ret_inv in E.
  destruct E as (l & s0' & tra & trb & Es & Estep & _).
  rewrite E0 in Es. injection Es as <- _ _.
  apply step_current_load in Estep. rewrite Estep.
  destruct (0 <? server_capacity s); auto.
Qed.

Lemma load_monitor_final_bounds : forall fuel s,
  min_handlers <= active_handlers s <= max_handlers ->
  active_handlers s <= active_handlers (final (load_monitor fuel s)) <= max_handlers
  /\ ((0 < fuel)%nat ->
      current_load (final (load_monitor fuel s)) = 80
      \/ current_load (final (load_monitor fuel s)) = 100).
Proof.
  induction fuel as [| fuel IH]; intros s Hinv.
  - simpl. split; [lia | intros H; inversion H].
  - destruct (iteration_grows s Hinv) as (s1 & tr1 & E & Ha & Hl).
    unfold load_monitor in *.
    destruct (while_true_continue _ fuel _ _ _ E) as (_ & -> & _).
    destruct (IH s1) as [I1 I2]; [unfold min_handlers in *; lia |].
    split; [lia |]. intros _.
    destruct fuel as [| fuel]; [exact Hl | apply I2; lia].
Qed.

(** X13. With the loads it samples itself (80 or 100, never under 50) the
    loop of [load_monitor] never removes a handler, never calls the
    blocking [acquire()] of its shrinking branch and so never waits, and
    never leaves: after any number of passes the number of handlers is at
    least what it was and at most 10, and the load stored is 80 or 100. *)
Theorem load_monitor_only_grows (fuel : nat) (s : State)
  (Hinv : min_handlers <= active_handlers s <= max_handlers) :
  let o := load_monitor fuel s in
  returns o = false /\ waits o = false
  /\ active_handlers s <= active_handlers (final o) <= max_handlers
  /\ ((0 < fuel)%nat ->
      current_load (final o) = 80 \/ current_load (final o) = 100).
Proof.
  cbv zeta.
  destruct (while_true_runs load_monitor_iteration) with (fuel := fuel) (s := s)
    as (s' & tr & E).
  { intros s0.
    destruct (MonitoringFacts.load_monitor_iteration_returns s0) as (s1 & tr1 & E1 & _).
    now exists s1, tr1. }
  destruct (load_monitor_final_bounds fuel s Hinv) as [H1 H2].
  unfold load_monitor in *. rewrite E in *. simpl in *. auto.
Qed.

(** Eight passes from program start: five drain the semaphore, and two of
    the other three add a handler. *)
Lemma load_monitor_only_grows_witness :
  5 <= active_handlers (final (load_monitor 8 initial_state)) <= 10
  /\ active_handlers (final (load_monitor 8 initial_state)) = 7.
Proof.
  split; [| reflexivity].
  pose proof (load_monitor_only_grows 8 initial_state) as H.
  destruct H as (_ & _ & H & _).
  - simpl. unfold min_handlers, max_handlers. lia.
  - exact H.
Defined.

(** X14. The adaptation moves a unit of the semaphore with every handler:
    when it returns, the units free less the handlers is what it was.  It
    waits exactly when the load is under 50, there are more than 5
    handlers and no unit is free, and then [active_handlers] is already
    one less while the semaphore is untouched. *)
Theorem adaptation_moves_units (load : Z) (s : State)
  (Hinv : min_handlers <= active_handlers s <= max_handlers) :
  let o := adapt_capacity load s in
  (returns o = true ->
   server_capacity (final o) - active_handlers (final o)
   = server_capacity s - active_handlers s)
  /\ (waits o = true <->
      load < shrink_threshold /\ min_handlers < active_handlers s
      /\ server_capacity s <= 0)
  /\ (waits o = true ->
      active_handlers (final o) = active_handlers s - 1
      /\ server_capacity (final o) = server_capacity s).
Proof.
  unfold min_handlers, max_handlers, shrink_threshold in *. cbv zeta.
  assert (Hup : wrap_int (active_handlers s + 1) = active_handlers s + 1)
    by (apply wrap_int_id; unfold in_int, int_min, int_max; lia).
  assert (Hdown : wrap_int (active_handlers s - 1) = active_handlers s - 1)
    by (apply wrap_int_id; unfold in_int, int_min, int_max; lia).
  unfold adapt_capacity, acquire, release, bind, get, put, modify, emit, ret, block,
    min_handlers, max_handlers, grow_threshold, shrink_threshold.
  simpl. repeat MonitoringFacts.branch; rewrite ?Hup, ?Hdown;
    repeat split; intros; try discriminate; try lia;
    try (exfalso; intuition (discriminate || lia)).
Qed.

(** Under a load of 20 with 6 handlers and no unit free. *)
Lemma adaptation_moves_units_witness :
  adapt_capacity 20 (mkState [] 0 20 false 6 0)
  = Blocked (mkState [] 0 20 false 5 0) [Acquire]
  /\ active_handlers (final (adapt_capacity 20 (mkState [] 0 20 false 6 0))) = 5.
Proof.
  split; [reflexivity |].
  replace 5 with (active_handlers (mkState [] 0 20 false 6 0) - 1) by reflexivity.
  apply (adaptation_moves_units 20 (mkState [] 0 20 false 6 0)).
  - simpl. unfold min_handlers, max_handlers. lia.
  - reflexivity.
Defined.

End MonitoringExtra.

(** ** A task from submission to completion *)

Module QuantumSubmission.
Import StdQueue Quantum QuantumTrace.

(** X15. A task submitted with [add_quantum_task] to a scheduler whose
    queue is empty, and served by a working processor with a unit free, is
    executed once and whole when it asks for 5 qubits or fewer, and as two
    halves, each for half its duration, when it asks for more; in both
    cases the worker then finds the queue empty and returns.  The time
    slept is what [sleep_for] sleeps: nothing for a duration that is not
    positive, and for a duration that is not negative the duration itself
    or twice its half. *)
Theorem submitted_task_runs
  (rand_seq : nat -> Z) (processor_id : Z)
  (task_id prio : Z) (crit : bool) (dur qubits : Z) (s : State)
  (Hidle : task_queue s = [])
  (Hworking : processor_id <> failed_processor s)
  (Hfree : 0 < quantum_processors s) :
  exists s' tr,
    bind (add_quantum_task task_id prio crit dur qubits)
      (fun _ => process_quantum_tasks rand_seq 4 processor_id) s
    = Ret tt s' tr
    /\ task_queue s' = []
    /\ quantum_processors s' = quantum_processors s
    /\ count is_started tr = (if split_threshold <? qubits then 2%nat else 1%nat)
    /\ count is_splitting tr = (if split_threshold <? qubits then 1%nat else 0%nat)
    /\ total_sleep tr
       = (if split_threshold <? qubits
          then 2 * slept (cdiv dur 2) else slept dur)
    /\ (0 <= dur ->
        total_sleep tr
        = (if split_threshold <? qubits then 2 * cdiv dur 2 else dur)).
Proof.
  set (task := mkQuantumTask task_id prio crit dur qubits false).
  set (s1 := set_task_queue s (push task (task_queue s))).
  assert (Eadd : add_quantum_task task_id prio crit dur qubits s
                 = Ret tt s1 [Print_added task]) by reflexivity.
  assert (Hq1 : task_queue s1 = [task]) by (unfold s1; rewrite Hidle; reflexivity).
  assert (Hsplit : should_split task = (split_threshold <? qubits)).
  { unfold should_split. simpl. apply andb_true_r. }
  destruct (QuantumFacts.worker_loop_returns rand_seq processor_id 4 s1)
    as (s' & tr & Erun & Hempty & Hunits & _).
  { rewrite Hq1. unfold pending_passes, task_passes. simpl.
    destruct (should_split task); simpl; lia. }
  { left. exact Hfree. }
  exists s', (Print_added task :: tr).
  split; [exact (bind_ret_ret _ _ _ _ _ _ _ _ _ Eadd Erun) |].
  destruct (QuantumExtra.worker_loop_accounts rand_seq processor_id 4 s1 s' tr Erun)
    as (_ & _ & Hs & _ & Hw).
  destruct (Hw Hworking) as [Hstarted Htime].
  rewrite Hq1 in Hs, Hstarted, Htime.
  unfold dispatches_due, dispatches_of, time_due, time_of, splits_due, count
    in Hs, Hstarted, Htime.
  cbn [map list_sum fold_right sum_Z filter] in Hs, Hstarted, Htime.
  rewrite Hsplit in Hs, Hstarted, Htime.
  split; [exact Hempty |]. split; [exact Hunits |].
  unfold total_sleep, sum_Z, count in *.
  cbn [filter map fold_right sleep_of is_started is_splitting].
  change (duration task) with dur in Htime.
  assert (Hhalf : 0 <= dur -> 0 <= cdiv dur 2)
    by (intros Hd; pose proof (cdiv2_bounds dur Hd); lia).
  unfold slept in *.
  destruct (split_threshold <? qubits); cbn [length] in Hs;
    (split; [lia |]); (split; [exact Hs |]); (split; [lia |]);
    intros Hd; specialize (Hhalf Hd); lia.
Qed.

(** Task 9 of [main], 4000 ms and 9 qubits, alone on processor 1. *)
Lemma submitted_task_runs_witness :
  exists s' tr,
    bind (add_quantum_task 9 5 false 4000 9)
      (fun _ => process_quantum_tasks (fun _ => 3) 4 1) initial_state
    = Ret tt s' tr
    /\ total_sleep tr = 4000.
Proof.
  destruct (submitted_task_runs (fun _ => 3) 1 9 5 false 4000 9 initial_state)
    as (s' & tr & E & _ & _ & _ & _ & Ht & _).
  - reflexivity.
  - discriminate.
  - reflexivity.
  - exists s', tr. split; [exact E | exact Ht].
Defined.

End QuantumSubmission.

(** ** Empty queues *)

Section worker_ends.
Variable rand_seq : nat -> Z.
Variable processor_id : Z.

(** The loop of a worker makes no more passes than are pending: it has
    returned, the queue empty, or it waits in [acquire()] for a unit that
    another thread holds. *)
Lemma worker_loop_ends : forall fuel s,
  (Quantum.pending_passes (Quantum.task_queue s) < fuel)%nat ->
  let o := Quantum.process_quantum_tasks rand_seq fuel processor_id s in
  (returns o = true /\ Quantum.task_queue (final o) = [])
  \/ (waits o = true /\ Quantum.quantum_processors s <= 0
      /\ processor_id <> Quantum.failed_processor s).
Proof.
  induction fuel as [| fuel IH]; intros s Hfuel; [lia |].
  cbv zeta. unfold Quantum.process_quantum_tasks in *.
  pose proof (QuantumExtra.worker_iteration_pass rand_seq processor_id s) as Hp.
  inversion Hp as [s0 Hq Es Eo | s0 task rest Hpop Hsplit Es Eo
                  | s0 task rest Hpop Hsplit Hf Es Eo
                  | s0 task rest Hpop Hsplit Hf Hu Es Eo
                  | s0 task rest Hpop Hsplit Hf Hu Es Eo];
    subst s0; symmetry in Eo;
    try (pose proof (QuantumFacts.pending_passes_pop _ _ _ Hpop) as Hwork;
         unfold Quantum.task_passes in Hwork; rewrite Hsplit in Hwork).
  - left. rewrite (while_true_break _ fuel _ _ _ Eo). simpl. auto.
  - destruct (while_true_continue _ fuel _ _ _ Eo) as (_ & -> & ->).
    rewrite (while_true_continue_waits _ fuel _ _ _ Eo).
    apply (IH (Quantum.after_split rand_seq s task rest)).
    simpl. rewrite !QuantumFacts.pending_passes_push.
    unfold Quantum.task_passes. rewrite !QuantumFacts.child_not_split. lia.
  - destruct (while_true_continue _ fuel _ _ _ Eo) as (_ & -> & ->).
    rewrite (while_true_continue_waits _ fuel _ _ _ Eo).
    apply (IH (Quantum.set_task_queue s rest)). simpl. lia.
  - destruct (while_true_continue _ fuel _ _ _ Eo) as (_ & -> & ->).
    rewrite (while_true_continue_waits _ fuel _ _ _ Eo).
    apply (IH (Quantum.set_task_queue s rest)). simpl. lia.
  - right. rewrite (while_true_stuck _ fuel _ _ _ Eo). simpl. auto.
Qed.

End worker_ends.

(** A handler that finds nothing sleeps 100 ms, pass after pass. *)
Lemma handler_idles : forall fuel s,
  Monitoring.data_queue s = [] ->
  Monitoring.data_handler fuel s
  = Running s (repeat (Monitoring.Sleep_ms 100) fuel).
Proof.
  induction fuel as [| fuel IH]; intros s Hq; [reflexivity |].
  unfold Monitoring.data_handler in *. rewrite while_true_step. unfold bind.
  rewrite (MonitoringFacts.handler_iteration_on_empty s Hq), (IH s Hq).
  reflexivity.
Qed.

Lemma handler_iteration_on_record s data rest :
  StdQueue.pop Monitoring.ComparePriority (Monitoring.data_queue s)
  = Some (data, rest) ->
  0 < Monitoring.server_capacity s ->
  Monitoring.data_handler_iteration s
  = Ret Continue (Monitoring.set_data_queue s rest)
      [Monitoring.Acquire; Monitoring.Print_processing data;
       Monitoring.Sleep_ms (cdiv (Monitoring.size data) 100);
       Monitoring.Release;
       Monitoring.Print_processed (Monitoring.station_id data)].
Proof.
  intros Hpop Hcap.
  assert (Hempty : StdQueue.empty (Monitoring.data_queue s) = false)
    by (destruct (Monitoring.data_queue s); [discriminate | reflexivity]).
  destruct (MonitoringExtra.process_data_outcome data
              (Monitoring.set_data_queue s rest)) as [Hrun _].
  unfold Monitoring.data_handler_iteration.
  cbv beta iota delta [bind get put]. rewrite Hempty. cbn [negb].
  rewrite Hpop. cbv beta iota. rewrite (Hrun Hcap). reflexivity.
Qed.

(** A handler that finds one record processes it, and then finds nothing. *)
Lemma handler_serves_then_idles fuel s data :
  Monitoring.data_queue s = [] -> 0 < Monitoring.server_capacity s ->
  Monitoring.data_handler (Datatypes.S fuel)
    (Monitoring.set_data_queue s (StdQueue.push data (Monitoring.data_queue s)))
  = Running s
      ([Monitoring.Acquire; Monitoring.Print_processing data;
        Monitoring.Sleep_ms (cdiv (Monitoring.size data) 100);
        Monitoring.Release;
        Monitoring.Print_processed (Monitoring.station_id data)]
       ++ repeat (Monitoring.Sleep_ms 100) fuel).
Proof.
  intros Hq Hcap. rewrite Hq.
  assert (Hs : Monitoring.set_data_queue
                 (Monitoring.set_data_queue s (StdQueue.push data [])) [] = s).
  { unfold Monitoring.set_data_queue. simpl. rewrite <- Hq.
    apply MonitoringFacts.monitoring_state_eta. }
  assert (Eit : Monitoring.data_handler_iteration
                  (Monitoring.set_data_queue s (StdQueue.push data []))
                = Ret Continue s
                    [Monitoring.Acquire; Monitoring.Print_processing data;
                     Monitoring.Sleep_ms (cdiv (Monitoring.size data) 100);
                     Monitoring.Release;
                     Monitoring.Print_processed (Monitoring.station_id data)]).
  { rewrite <- Hs at 2. apply handler_iteration_on_record;
      [reflexivity | exact Hcap]. }
  unfold Monitoring.data_handler. rewrite while_true_step. unfold bind.
  rewrite Eit. fold (Monitoring.data_handler fuel).
  rewrite (handler_idles fuel s Hq). reflexivity.
Qed.

(** C9. In the bounded run a worker that finds [task_queue] empty leaves
    its loop at once; from every queue and every state its loop makes no
    more passes than are pending (three for a task to split, one for any
    other) and then has returned with the queue empty, unless it waits in
    [acquire()] for a unit held elsewhere; from the state of program start
    it returns whatever the queue holds.  A handler of the server that
    finds [data_queue] empty sleeps 100 ms and goes round again: on an
    empty queue its loop is pass after pass of that sleep, every pass of
    its loop is followed by the loop again from the state the pass left,
    a record found is processed before the sleeps resume, and the loop
    returns for no amount of fuel. *)
Theorem empty_queue_ends_bounded_worker_only :
  (forall rand_seq processor_id s,
      Quantum.task_queue s = [] ->
      Quantum.worker_iteration rand_seq processor_id s = Ret Break s []
      /\ forall fuel,
           Quantum.process_quantum_tasks rand_seq (Datatypes.S fuel) processor_id s
           = Ret tt s [])
  /\ (forall rand_seq processor_id s fuel,
      (Quantum.pending_passes (Quantum.task_queue s) < fuel)%nat ->
      let o := Quantum.process_quantum_tasks rand_seq fuel processor_id s in
      (returns o = true /\ Quantum.task_queue (final o) = [])
      \/ (waits o = true /\ Quantum.quantum_processors s <= 0
          /\ processor_id <> Quantum.failed_processor s))
  /\ (forall rand_seq processor_id q,
      exists s' tr,
        Quantum.process_quantum_tasks rand_seq
          (Datatypes.S (Quantum.pending_passes q)) processor_id
          (Quantum.set_task_queue Quantum.initial_state q)
        = Ret tt s' tr
        /\ Quantum.task_queue s' = [])
  /\ (forall s,
      Monitoring.data_queue s = [] ->
      Monitoring.data_handler_iteration s
      = Ret Continue s [Monitoring.Sleep_ms 100])
  /\ (forall fuel s,
      Monitoring.data_queue s = [] ->
      Monitoring.data_handler fuel s
      = Running s (repeat (Monitoring.Sleep_ms 100) fuel))
  /\ (forall fuel s c s1 tr1,
      Monitoring.data_handler_iteration s = Ret c s1 tr1 ->
      c = Continue
      /\ trace (Monitoring.data_handler (Datatypes.S fuel) s)
         = tr1 ++ trace (Monitoring.data_handler fuel s1)
      /\ final (Monitoring.data_handler (Datatypes.S fuel) s)
         = final (Monitoring.data_handler fuel s1))
  /\ (forall fuel s data,
      Monitoring.data_queue s = [] -> 0 < Monitoring.server_capacity s ->
      Monitoring.data_handler (Datatypes.S fuel)
        (Monitoring.set_data_queue s
           (StdQueue.push data (Monitoring.data_queue s)))
      = Running s
          ([Monitoring.Acquire; Monitoring.Print_processing data;
            Monitoring.Sleep_ms (cdiv (Monitoring.size data) 100);
            Monitoring.Release;
            Monitoring.Print_processed (Monitoring.station_id data)]
           ++ repeat (Monitoring.Sleep_ms 100) fuel))
  /\ (forall fuel s, returns (Monitoring.data_handler fuel s) = false).
Proof.
  split; [| split; [| split; [| split; [| split; [| split; [| split]]]]]].
  - intros rand_seq processor_id s Hq.
    pose proof (QuantumFacts.iteration_on_empty rand_seq processor_id s Hq) as H.
    split; [exact H |]. intros fuel.
    unfold Quantum.process_quantum_tasks. now apply while_true_break.
  - intros rand_seq processor_id s fuel. apply worker_loop_ends.
  - intros rand_seq processor_id q.
    destruct (QuantumFacts.worker_loop_returns rand_seq processor_id
                (Datatypes.S (Quantum.pending_passes q))
                (Quantum.set_task_queue Quantum.initial_state q))
      as (s' & tr & H & Hq & _).
    + simpl. lia.
    + left. reflexivity.
    + now exists s', tr.
  - exact MonitoringFacts.handler_iteration_on_empty.
  - exact handler_idles.
  - intros fuel s c s1 tr1 E.
    pose proof (MonitoringFacts.handler_iteration_continues _ _ _ _ E). subst c.
    split; [reflexivity |]. unfold Monitoring.data_handler.
    destruct (while_true_continue _ fuel _ _ _ E) as (Ht & Hf & _). auto.
  - exact handler_serves_then_idles.
  - exact MonitoringFacts.data_handler_never_returns.
Qed.

(** The ten tasks of [main], served by processor 0 alone: tasks 1, 2, 4, 6
    and 9 are split, so that 21 passes empty the queue. *)
Lemma empty_queue_ends_bounded_worker_only_witness :
  returns
    (Quantum.process_quantum_tasks (fun n => Z.of_nat n) 21 0
       (final (Quantum.main_tasks Quantum.initial_state))) = true
  /\ Quantum.task_queue
       (final
          (Quantum.process_quantum_tasks (fun n => Z.of_nat n) 21 0
             (final (Quantum.main_tasks Quantum.initial_state)))) = [].
Proof.
  destruct (proj1 (proj2 empty_queue_ends_bounded_worker_only)
              (fun n => Z.of_nat n) 0
              (final (Quantum.main_tasks Quantum.initial_state)) 21%nat)
    as [H | (_ & H & _)].
  - vm_compute. lia.
  - exact H.
  - exfalso. vm_compute in H. apply H. reflexivity.
Defined.
